(** * Redmium: the staged-file command planner of the pre-commit hook

    A shallow embedding of the lint-staged configuration module
    (`getFilesForPatterns` and `processStagedFiles`) together with the
    properties its specification states about the command plan.

    JavaScript strings are modelled by [string] (one [ascii] per code unit,
    so code units below 256), arrays by [list].  The module is read twice.
    The pure reading takes the two functions as functions of their
    arguments and of the two things they read from their surroundings: the
    working directory returned by `process.cwd()` and the glob engine behind
    `micromatch`.  The reading over the store ([Run]) keeps the arrays in a
    store, lets the glob engine refuse a pattern and `process.cwd()` fail,
    and is shown to leave in the store what the pure reading computes. *)

From Stdlib Require Import String Ascii List Bool Arith Lia Sorted Permutation.
Import ListNotations.

Open Scope string_scope.
Open Scope list_scope.

(** ** JavaScript built-ins used by the module *)

Module JS.

(** The suffix of [s] that starts at index [n]. *)
Fixpoint drop (n : nat) (s : string) : string :=
  match n, s with
  | O, _ => s
  | S _, EmptyString => EmptyString
  | S n', String _ s' => drop n' s'
  end.

(** `s.replace(searchValue, replaceValue)` for a string [searchValue] and
    a [replaceValue] that holds no `$`: the first occurrence of
    [searchValue], scanning from index 0, is replaced; a string without
    any occurrence is returned as it is.  The empty [searchValue] occurs
    at index 0. *)
Fixpoint replace (s searchValue replaceValue : string) : string :=
  if prefix searchValue s
  then (replaceValue ++ drop (String.length searchValue) s)%string
  else match s with
       | EmptyString => EmptyString
       | String c s' => String c (replace s' searchValue replaceValue)
       end.

(** `xs.join(sep)` on an array of strings. *)
Definition join (sep : string) (xs : list string) : string :=
  String.concat sep xs.

(** `xs.push(x)`, as the array after the call. *)
Definition push (xs : list string) (x : string) : list string :=
  xs ++ [x].

(** Truthiness of `xs.length`. *)
Definition truthy (n : nat) : bool := negb (n =? 0)%nat.

(** Insertion into a `Set` kept in insertion order: a value already
    present keeps its place. *)
Definition setAdd (keep : list string) (x : string) : list string :=
  if existsb (String.eqb x) keep then keep else keep ++ [x].

End JS.

(** ** The planner *)

(** The command strings and the glob groups that `processStagedFiles`
    writes out. *)
Definition cargoFmt : string :=
  "cargo fmt --manifest-path=./src-tauri/Cargo.toml".
Definition cargoCheck : string :=
  "cargo check --manifest-path=./src-tauri/Cargo.toml --color=always".
Definition tsc : string := "pnpm tsc --pretty -p ./tsconfig.json".
Definition prettierPrefix : string := "pnpm prettier --write ".
Definition eslintPrefix : string := "pnpm eslint ".

Definition dataPatterns : list string := ["**/*.{json,yaml}"].
Definition htmlPatterns : list string := ["**/*.html"].
Definition rustPatterns : list string := ["**/*.rs"].
Definition typescriptPatterns : list string := ["**/*.{ts,tsx}"].
Definition javascriptPatterns : list string := ["**/*.{js,cjs,mjs}"].

Section Planner.

(** `process.cwd()`: fixed for the duration of a call. *)
Variable cwd : string.

(** The glob engine: [isMatch pattern item] is whether the matcher that
    micromatch compiles from the glob [pattern] accepts [item].  Patterns
    are positive (not negated with `!`) and well formed, as the five
    patterns of the module are. *)
Variable isMatch : string -> string -> bool.

(** `micromatch(list, patterns)` for positive patterns on a POSIX host:
    pattern after pattern, every item of the list that the pattern accepts
    is added to the set of kept items, and the set is returned in
    insertion order. *)
Definition micromatch (items patterns : list string) : list string :=
  fold_left
    (fun keep pattern =>
       fold_left
         (fun keep item =>
            if isMatch pattern item then JS.setAdd keep item else keep)
         items keep)
    patterns [].

Definition getFilesForPatterns (files patterns : list string) : list string :=
  map (fun path => JS.replace path cwd ".") (micromatch files patterns).

Definition processStagedFiles (stagedFiles : list string) : list string :=
  let commands : list string := [] in
  let dataFiles := getFilesForPatterns stagedFiles dataPatterns in
  let htmlFiles := getFilesForPatterns stagedFiles htmlPatterns in
  let rustFiles := getFilesForPatterns stagedFiles rustPatterns in
  let typescriptFiles := getFilesForPatterns stagedFiles typescriptPatterns in
  let javascriptFiles := getFilesForPatterns stagedFiles javascriptPatterns in
  let filesToEslint := typescriptFiles ++ javascriptFiles in
  let filesToPrettify :=
    dataFiles ++ htmlFiles ++ typescriptFiles ++ javascriptFiles in
  let commands :=
    if JS.truthy (length rustFiles)
    then JS.push (JS.push commands cargoFmt) cargoCheck
    else commands in
  let commands :=
    if JS.truthy (length filesToPrettify)
    then JS.push commands (prettierPrefix ++ JS.join " " filesToPrettify)%string
    else commands in
  let commands :=
    if JS.truthy (length typescriptFiles)
    then JS.push commands tsc
    else commands in
  let commands :=
    if JS.truthy (length filesToEslint)
    then JS.push commands (eslintPrefix ++ JS.join " " filesToEslint)%string
    else commands in
  commands.

End Planner.

(** ** A glob engine for the scenarios *)

Module Glob.

Definition isSlash (c : ascii) : bool := (c =? "/")%char.
Definition isDot (c : ascii) : bool := (c =? ".")%char.
(** Characters that the regular-expression wildcard `.` refuses. *)
Definition isLineTerminator (c : ascii) : bool :=
  ((c =? "010") || (c =? "013"))%char.

(** The pieces of [s] between the occurrences of [sep]; [acc] is the
    piece being read. *)
Fixpoint splitOn (sep : ascii) (acc s : string) : list string :=
  match s with
  | EmptyString => [acc]
  | String c s' =>
      if (c =? sep)%char then acc :: splitOn sep EmptyString s'
      else splitOn sep (acc ++ String c EmptyString)%string s'
  end.

(** `{a,b,c}` alternation (the first group, not nested): one brace-free
    pattern per alternative. *)
Definition expandBraces (glob : string) : list string :=
  match index 0 "{" glob with
  | None => [glob]
  | Some i =>
      match index i "}" glob with
      | None => [glob]
      | Some j =>
          let before := substring 0 i glob in
          let body := substring (S i) (j - S i) glob in
          let after := JS.drop (S j) glob in
          map (fun alt => (before ++ alt ++ after)%string)
              (splitOn "," EmptyString body)
      end
  end.

(** A brace-free pattern without globstar against the rest of a path.
    `*` stands for any run of characters other than `/`; where it opens a
    path segment ([segStart]) the segment must be non-empty and must not
    begin with a dot.  Every other character stands for itself. *)
Fixpoint segments (pattern : string) (segStart : bool) (input : string)
  {struct pattern} : bool :=
  match pattern with
  | EmptyString =>
      match input with EmptyString => true | _ => false end
  | String "*" pattern' =>
      (if segStart
       then match input with
            | String c _ => negb (isDot c) && negb (isLineTerminator c)
            | EmptyString => false
            end
       else true)
      && (fix star (input : string) : bool :=
            segments pattern' false input
            || match input with
               | String c input' => negb (isSlash c) && star input'
               | EmptyString => false
               end) input
  | String a pattern' =>
      match input with
      | String c input' => (a =? c)%char && segments pattern' (isSlash a) input'
      | EmptyString => false
      end
  end.

(** A leading `**/`: any run of whole directories, none of which begins
    with a dot, closed by a `/`; [k] reads what follows.  [boundary] says
    that the next character opens a path segment. *)
Fixpoint globstarSlash (k : string -> bool) (boundary : bool) (input : string)
  : bool :=
  match input with
  | EmptyString => false
  | String c input' =>
      (isSlash c && k input')
      || (negb (isLineTerminator c) && negb (boundary && isDot c)
          && globstarSlash k (isSlash c) input')
  end.

Definition matchOne (pattern input : string) : bool :=
  match pattern with
  | String "*" (String "*" (String "/" rest)) =>
      segments rest true input
      || globstarSlash (segments rest true) true input
  | _ => segments pattern true input
  end.

(** Modelled from the spec: the glob engine itself (the micromatch
    package and the picomatch matcher it compiles patterns with) is a
    dependency whose code is not among the sources.  The specification
    describes a glob as a wildcard expression matching file paths by
    extension and structure, and the groups of the planner as extension
    groups; the model reads the fragment of the glob language that these
    groups are written in: literal characters, `*`, a leading `**/` and
    one `{a,b}` alternation, with dot files and dot directories hidden
    from the wildcards.  The empty path matches nothing and a path equal
    to the pattern text matches. *)
Definition picomatch (glob input : string) : bool :=
  match input with
  | EmptyString => false
  | _ => (input =? glob)%string
         || existsb (fun pattern => matchOne pattern input) (expandBraces glob)
  end.

End Glob.

(** ** The module as a program over the store *)

(** The two functions once more, this time with what the pure reading above
    takes for granted spelled out: arrays are objects of a store, handed
    around by reference and allocated or grown by the calls; the glob
    engine can refuse a pattern; `process.cwd()` can fail.  A call either
    returns a value and the store it leaves, or throws. *)
Module Run.

Inductive exn : Set :=
| PatternRefused (pattern : string)
| CwdUnavailable
| NotAnArray (reference : nat).

Inductive outcome (A : Type) : Type :=
| Returns (a : A)
| Throws (e : exn).

Arguments Returns {A} a.
Arguments Throws {A} e.

(** The arrays allocated so far, each under the reference it was given, and
    the working directory of the process, when it can be read. *)
Record world : Type := World {
  arrays : list (list string);
  workingDirectory : option string
}.

Definition M (A : Type) : Type := world -> outcome (A * world).

Definition ret {A : Type} (a : A) : M A := fun w => Returns (a, w).

Definition bind {A B : Type} (c : M A) (k : A -> M B) : M B :=
  fun w =>
    match c w with
    | Returns (a, w') => k a w'
    | Throws e => Throws e
    end.

Definition lift {A : Type} (o : outcome A) : M A :=
  fun w =>
    match o with
    | Returns a => Returns (a, w)
    | Throws e => Throws e
    end.

Notation "x <- c ;; k" := (bind c (fun x => k))
  (at level 61, c at next level, right associativity).
Notation "c ;; k" := (bind c (fun _ => k))
  (at level 61, right associativity).

(** An array literal, a spread or the result of `map` and `filter`: a new
    array under a fresh reference. *)
Definition newArray (xs : list string) : M nat :=
  fun w =>
    Returns (length (arrays w),
             World (arrays w ++ [xs]) (workingDirectory w)).

Definition readArray (r : nat) : M (list string) :=
  fun w =>
    match nth_error (arrays w) r with
    | Some xs => Returns (xs, w)
    | None => Throws (NotAnArray r)
    end.

Fixpoint update (r : nat) (f : list string -> list string)
  (heap : list (list string)) : list (list string) :=
  match heap, r with
  | [], _ => []
  | xs :: heap', O => f xs :: heap'
  | xs :: heap', S r' => xs :: update r' f heap'
  end.

(** `array.push(x)`: the array under the reference grows in place. *)
Definition push (r : nat) (x : string) : M unit :=
  fun w =>
    match nth_error (arrays w) r with
    | Some _ =>
        Returns (tt, World (update r (fun xs => JS.push xs x) (arrays w))
                           (workingDirectory w))
    | None => Throws (NotAnArray r)
    end.

(** `process.cwd()`. *)
Definition cwd : M string :=
  fun w =>
    match workingDirectory w with
    | Some d => Returns (d, w)
    | None => Throws CwdUnavailable
    end.

(** `xs.map(f)` for a callback with effects: the callback runs once per
    element, in order, and not at all on the empty array. *)
Fixpoint mapM {A B : Type} (f : A -> M B) (xs : list A) : M (list B) :=
  match xs with
  | [] => ret []
  | x :: xs' => y <- f x ;; ys <- mapM f xs' ;; ret (y :: ys)
  end.

(** What picomatch compiles a pattern to: the test on an item and whether
    the pattern was read as a negation. *)
Record matcher : Type := Matcher {
  negated : bool;
  test : string -> bool
}.

(** The three sets of `micromatch`. *)
Record sets : Type := Sets {
  omit : list string;
  keep : list string;
  items : list string
}.

Definition setDelete (s : list string) (x : string) : list string :=
  filter (fun y => negb (y =? x)%string) s.

Definition setHas (s : list string) (x : string) : bool :=
  existsb (String.eqb x) s.

(** One item under one compiled pattern: the item is recorded as seen; an
    item that a negated pattern excludes joins [omit], an item that a
    positive pattern accepts leaves [omit] and joins [keep]. *)
Definition visit (m : matcher) (s : sets) (item : string) : sets :=
  let matched := test m item in
  let seen := JS.setAdd (items s) item in
  if (if negated m then negb matched else matched)
  then if negated m
       then Sets (JS.setAdd (omit s) item) (keep s) seen
       else Sets (setDelete (omit s) item) (JS.setAdd (keep s) item) seen
  else Sets (omit s) (keep s) seen.

Section Engine.

(** The glob engine: [compile pattern] is the matcher that picomatch makes
    of the pattern, or [None] when it refuses the pattern (as it does the
    empty string). *)
Variable compile : string -> option matcher.

(** The loop of `micromatch` over the patterns: each pattern is compiled,
    then tried on every item; [negatives] counts the negated patterns. *)
Fixpoint scan (patterns xs : list string) (s : sets) (negatives : nat)
  : outcome (sets * nat) :=
  match patterns with
  | [] => Returns (s, negatives)
  | pattern :: rest =>
      match compile pattern with
      | None => Throws (PatternRefused pattern)
      | Some m =>
          scan rest xs (fold_left (visit m) xs s)
               (if negated m then S negatives else negatives)
      end
  end.

(** The items that `micromatch` returns: the kept ones, or every item seen
    when all patterns are negations, without the omitted ones. *)
Definition select (patterns xs : list string) : outcome (list string) :=
  match scan patterns xs (Sets [] [] []) 0 with
  | Returns (s, negatives) =>
      let result :=
        if (negatives =? length patterns)%nat then items s else keep s in
      Returns (filter (fun item => negb (setHas (omit s) item)) result)
  | Throws e => Throws e
  end.

Definition micromatch (files : nat) (patterns : list string) : M nat :=
  xs <- readArray files ;;
  matches <- lift (select patterns xs) ;;
  newArray matches.

Definition getFilesForPatterns (files : nat) (patterns : list string) : M nat :=
  matched <- micromatch files patterns ;;
  paths <- readArray matched ;;
  rewritten <- mapM (fun path => d <- cwd ;; ret (JS.replace path d ".")) paths ;;
  newArray rewritten.

Definition processStagedFiles (stagedFiles : nat) : M nat :=
  commands <- newArray [] ;;
  dataFiles <- getFilesForPatterns stagedFiles dataPatterns ;;
  htmlFiles <- getFilesForPatterns stagedFiles htmlPatterns ;;
  rustFiles <- getFilesForPatterns stagedFiles rustPatterns ;;
  typescriptFiles <- getFilesForPatterns stagedFiles typescriptPatterns ;;
  javascriptFiles <- getFilesForPatterns stagedFiles javascriptPatterns ;;
  ts <- readArray typescriptFiles ;;
  js <- readArray javascriptFiles ;;
  filesToEslint <- newArray (ts ++ js) ;;
  data <- readArray dataFiles ;;
  html <- readArray htmlFiles ;;
  ts <- readArray typescriptFiles ;;
  js <- readArray javascriptFiles ;;
  filesToPrettify <- newArray (data ++ html ++ ts ++ js) ;;
  rust <- readArray rustFiles ;;
  (if JS.truthy (length rust)
   then push commands cargoFmt ;; push commands cargoCheck
   else ret tt) ;;
  toPrettify <- readArray filesToPrettify ;;
  (if JS.truthy (length toPrettify)
   then push commands (prettierPrefix ++ JS.join " " toPrettify)%string
   else ret tt) ;;
  ts <- readArray typescriptFiles ;;
  (if JS.truthy (length ts)
   then push commands tsc
   else ret tt) ;;
  toEslint <- readArray filesToEslint ;;
  (if JS.truthy (length toEslint)
   then push commands (eslintPrefix ++ JS.join " " toEslint)%string
   else ret tt) ;;
  ret commands.

(** The test of the pure reading: what the compiled pattern says of the
    item. *)
Definition matches (pattern item : string) : bool :=
  match compile pattern with
  | Some m => test m item
  | None => false
  end.

(** The engine accepts the pattern and reads it as a positive one. *)
Definition positive (pattern : string) : Prop :=
  exists m, compile pattern = Some m /\ negated m = false.

End Engine.

(** The number of `!` that open a pattern, and the pattern after them. *)
Fixpoint stripBangs (glob : string) : nat * string :=
  match glob with
  | String "!" rest => let (n, inner) := stripBangs rest in (S n, inner)
  | _ => (O, glob)
  end.

(** Modelled from the spec: the compiler of the glob engine, which is not
    among the sources, for the fragment that [Glob.picomatch] reads.  The
    empty pattern is refused; an odd number of leading `!` makes the
    pattern a negation of what follows them. *)
Definition globEngine (glob : string) : option matcher :=
  match glob with
  | EmptyString => None
  | _ =>
      let (n, inner) := stripBangs glob in
      Some (Matcher (Nat.odd n)
              (fun input =>
                 match input with
                 | EmptyString => false
                 | _ => (input =? glob)%string
                        || xorb (Nat.odd n)
                                (existsb (fun pattern => Glob.matchOne pattern input)
                                         (Glob.expandBraces inner))
                 end))
  end.

End Run.

(** ** Vocabulary of the specification *)

(** The five external tools a command of the plan can invoke, in the order
    in which the specification lists them. *)
Inductive tool : Set := CargoFmt | CargoCheck | Prettier | Tsc | Eslint.

Definition rank (t : tool) : nat :=
  match t with
  | CargoFmt => 0
  | CargoCheck => 1
  | Prettier => 2
  | Tsc => 3
  | Eslint => 4
  end.

(** The tool that a command string invokes. *)
Definition toolOf (command : string) : option tool :=
  if (command =? cargoFmt)%string then Some CargoFmt
  else if (command =? cargoCheck)%string then Some CargoCheck
  else if (command =? tsc)%string then Some Tsc
  else if prefix prettierPrefix command then Some Prettier
  else if prefix eslintPrefix command then Some Eslint
  else None.

Definition invokes (t : tool) (command : string) : bool :=
  match toolOf command with
  | Some t' => (rank t =? rank t')%nat
  | None => false
  end.

(** [precedes c d]: both are commands of known tools and the tool of [c]
    comes strictly before the tool of [d]. *)
Definition precedes (c d : string) : Prop :=
  match toolOf c, toolOf d with
  | Some a, Some b => rank a < rank b
  | _, _ => False
  end.

(** The buckets of `processStagedFiles`, by the names of its constants. *)
Section Buckets.

Variable cwd : string.
Variable isMatch : string -> string -> bool.
Variable stagedFiles : list string.

Definition dataFiles : list string :=
  getFilesForPatterns cwd isMatch stagedFiles dataPatterns.
Definition htmlFiles : list string :=
  getFilesForPatterns cwd isMatch stagedFiles htmlPatterns.
Definition rustFiles : list string :=
  getFilesForPatterns cwd isMatch stagedFiles rustPatterns.
Definition typescriptFiles : list string :=
  getFilesForPatterns cwd isMatch stagedFiles typescriptPatterns.
Definition javascriptFiles : list string :=
  getFilesForPatterns cwd isMatch stagedFiles javascriptPatterns.
Definition filesToEslint : list string :=
  typescriptFiles ++ javascriptFiles.
Definition filesToPrettify : list string :=
  dataFiles ++ htmlFiles ++ typescriptFiles ++ javascriptFiles.

(** Some staged file is accepted by a pattern of the group. *)
Definition staged (patterns : list string) : Prop :=
  exists file pattern,
    In file stagedFiles /\ In pattern patterns /\ isMatch pattern file = true.

End Buckets.

(** The patterns of the five glob groups. *)
Definition allPatterns : list string :=
  dataPatterns ++ htmlPatterns ++ rustPatterns
    ++ typescriptPatterns ++ javascriptPatterns.

(** The plan as a function of which buckets hold a file and of the two
    commands that carry arguments. *)
Definition planOf (rust prettify typescript eslint : bool)
  (prettier lint : string) : list string :=
  (if rust then [cargoFmt; cargoCheck] else [])
  ++ (if prettify then [prettier] else [])
  ++ (if typescript then [tsc] else [])
  ++ (if eslint then [lint] else []).



(** [occursAt pat s n]: [pat] occurs in [s] at index [n]. *)
Definition occursAt (pat s : string) (n : nat) : Prop :=
  exists before after,
    s = (before ++ pat ++ after)%string /\ String.length before = n.

(** Whether [pat] occurs in [s] at some index. *)
Fixpoint occurs (pat s : string) : bool :=
  prefix pat s
  || match s with
     | EmptyString => false
     | String _ s' => occurs pat s'
     end.

(** [rewritten cwd path out]: [out] is [path] with the first occurrence of
    the working directory, wherever it lies, replaced by "."; a path in
    which the working directory does not occur is its own rewriting. *)
Inductive rewritten (cwd path : string) : string -> Prop :=
| rewritten_first (before after : string) :
    path = (before ++ cwd ++ after)%string ->
    (forall n, n < String.length before -> ~ occursAt cwd path n) ->
    rewritten cwd path (before ++ "." ++ after)%string
| rewritten_absent :
    (forall n, ~ occursAt cwd path n) ->
    rewritten cwd path path.

(** A pattern that the glob engine reads as a positive one: it is not the
    empty string, which the engine refuses, and it does not open with `!`,
    the mark of a negation. *)
Definition positivePattern (pattern : string) : Prop :=
  pattern <> "" /\ prefix "!" pattern = false.

(** Whether some pattern of the group accepts the file. *)
Definition accepted (isMatch : string -> string -> bool)
  (patterns : list string) (file : string) : bool :=
  existsb (fun pattern => isMatch pattern file) patterns.

(** The tools of the commands of a plan, in the order of the plan. *)
Definition toolsOf (plan : list string) : list (option tool) :=
  map toolOf plan.

(** The tool sequences that are left once the inclusions between the
    buckets are taken into account: the typed-script bucket is part of the
    lint targets, and the lint targets are part of the format targets. *)
Definition toolSequences : list (list tool) :=
  [ [];
    [Prettier];
    [Prettier; Eslint];
    [Prettier; Tsc; Eslint];
    [CargoFmt; CargoCheck];
    [CargoFmt; CargoCheck; Prettier];
    [CargoFmt; CargoCheck; Prettier; Eslint];
    [CargoFmt; CargoCheck; Prettier; Tsc; Eslint] ].

(** The tool sequence of [planOf]. *)
Definition toolsOfFlags (rust prettify typescript eslint : bool)
  : list (option tool) :=
  (if rust then [Some CargoFmt; Some CargoCheck] else [])
  ++ (if prettify then [Some Prettier] else [])
  ++ (if typescript then [Some Tsc] else [])
  ++ (if eslint then [Some Eslint] else []).

(** ** Strings *)

Section StringFacts.

Lemma length_append (s t : string) :
  String.length (s ++ t) = String.length s + String.length t.
Proof. induction s as [|c s IH]; simpl; [reflexivity | now rewrite IH]. Qed.

Lemma length_drop (n : nat) (s : string) :
  String.length (JS.drop n s) <= String.length s.
Proof. revert s; induction n as [|n IH]; intros [|c s]; simpl; auto. Qed.


Lemma prefix_append (s t : string) : prefix s (s ++ t) = true.
Proof.
  induction s as [|c s IH]; simpl.
  - now destruct t.
  - destruct (ascii_dec c c) as [_|ne]; [exact IH | now elim ne].
Qed.

Lemma prefix_inv (p s : string) :
  prefix p s = true -> s = (p ++ JS.drop (String.length p) s)%string.
Proof.
  revert s; induction p as [|a p IH]; intros s H.
  - reflexivity.
  - destruct s as [|b s]; simpl in H; [discriminate|].
    destruct (ascii_dec a b) as [->|]; [|discriminate].
    simpl. f_equal. now apply IH.
Qed.

Lemma prefix_iff (p s : string) :
  prefix p s = true <-> exists t, s = (p ++ t)%string.
Proof.
  split.
  - intros H. eexists. now apply prefix_inv.
  - intros [t ->]. apply prefix_append.
Qed.

(** An occurrence at index 0 is a prefix. *)
Lemma occursAt_0 (pat s : string) : occursAt pat s 0 <-> prefix pat s = true.
Proof.
  rewrite prefix_iff. split.
  - intros (before & after & -> & Hlen).
    destruct before; [|discriminate]. now exists after.
  - intros [t ->]. now exists ""%string, t.
Qed.

Lemma occursAt_S (pat : string) (c : ascii) (s : string) (n : nat) :
  occursAt pat (String c s) (S n) <-> occursAt pat s n.
Proof.
  split.
  - intros (before & after & Heq & Hlen).
    destruct before as [|b before]; [discriminate|].
    simpl in Heq, Hlen. injection Heq as _ ->. injection Hlen as <-.
    now exists before, after.
  - intros (before & after & -> & <-).
    now exists (String c before), after.
Qed.

Lemma occursAt_length (pat s : string) (n : nat) :
  occursAt pat s n -> n + String.length pat <= String.length s.
Proof.
  intros (before & after & -> & <-). rewrite !length_append. lia.
Qed.

Lemma occurs_unfold (pat s : string) :
  occurs pat s
  = prefix pat s
    || match s with
       | EmptyString => false
       | String _ s' => occurs pat s'
       end.
Proof. destruct s; reflexivity. Qed.

Lemma occurs_false (pat s : string) :
  occurs pat s = false -> forall n, ~ occursAt pat s n.
Proof.
  induction s as [|c s IH]; intros H [|n] Hocc;
    rewrite occurs_unfold in H; apply orb_false_elim in H as [Hp Hs].
  - apply occursAt_0 in Hocc. congruence.
  - apply occursAt_length in Hocc. simpl in Hocc. lia.
  - apply occursAt_0 in Hocc. congruence.
  - apply occursAt_S in Hocc. exact (IH Hs n Hocc).
Qed.

End StringFacts.

(** ** Replacement of the working directory *)

Section ReplaceFacts.

Lemma replace_unfold (s pat rep : string) :
  JS.replace s pat rep =
  if prefix pat s then (rep ++ JS.drop (String.length pat) s)%string
  else match s with
       | EmptyString => EmptyString
       | String c s' => String c (JS.replace s' pat rep)
       end.
Proof. destruct s; reflexivity. Qed.


(** A string in which the pattern does not occur is returned as it is. *)
Lemma replace_absent (pat rep s : string) :
  (forall n, ~ occursAt pat s n) -> JS.replace s pat rep = s.
Proof.
  induction s as [|c s IH]; intros Habs.
  - rewrite replace_unfold. destruct (prefix pat "") eqn:E; [|reflexivity].
    exfalso. apply (Habs 0). now apply occursAt_0.
  - rewrite replace_unfold. destruct (prefix pat (String c s)) eqn:E.
    + exfalso. apply (Habs 0). now apply occursAt_0.
    + f_equal. apply IH. intros n Hocc.
      apply (Habs (S n)). now apply occursAt_S.
Qed.



(** `replace` rewrites at the first occurrence, wherever it is, and
    nowhere else. *)
Lemma replace_rewritten (cwd path : string) :
  rewritten cwd path (JS.replace path cwd ".").
Proof.
  induction path as [|c path IH].
  - rewrite replace_unfold. destruct (prefix cwd "") eqn:E.
    + apply prefix_inv in E.
      apply (rewritten_first cwd _ ""%string); [exact E|]. simpl. lia.
    + apply rewritten_absent. intros [|n] H.
      * apply occursAt_0 in H. congruence.
      * apply occursAt_length in H. simpl in H. lia.
  - rewrite replace_unfold. destruct (prefix cwd (String c path)) eqn:E.
    + apply prefix_inv in E.
      apply (rewritten_first cwd _ ""%string); [exact E|]. simpl. lia.
    + destruct IH as [before after Hpath Hfirst|Habs].
      * apply (rewritten_first cwd _ (String c before) after).
        -- simpl. now rewrite Hpath at 1.
        -- intros [|n] Hn H.
           ++ apply occursAt_0 in H. congruence.
           ++ apply occursAt_S in H. apply (Hfirst n); [simpl in Hn; lia|].
              exact H.
      * apply rewritten_absent. intros [|n] H.
        -- apply occursAt_0 in H. congruence.
        -- apply occursAt_S in H. now apply (Habs n).
Qed.

End ReplaceFacts.

(** ** The matched set *)

Section MicromatchFacts.

Variable isMatch : string -> string -> bool.

Lemma setAdd_In (keep : list string) (x y : string) :
  In y (JS.setAdd keep x) <-> In y keep \/ y = x.
Proof.
  unfold JS.setAdd. destruct (existsb (String.eqb x) keep) eqn:E.
  - split; [now left|]. intros [H| ->]; [exact H|].
    apply existsb_exists in E as (z & Hz & Heq).
    apply String.eqb_eq in Heq. now subst.
  - rewrite in_app_iff. simpl. intuition.
Qed.

Lemma setAdd_NoDup (keep : list string) (x : string) :
  NoDup keep -> NoDup (JS.setAdd keep x).
Proof.
  intros Hnd. unfold JS.setAdd.
  destruct (existsb (String.eqb x) keep) eqn:E; [exact Hnd|].
  apply NoDup_app; [exact Hnd | repeat constructor; intros [] |].
  intros z Hz [->|[]].
  assert (existsb (String.eqb z) keep = true) as Habs; [|congruence].
  apply existsb_exists. exists z. split; [exact Hz | apply String.eqb_refl].
Qed.

(** The pass of one pattern over the items. *)
Lemma pass_In (pattern : string) (items keep : list string) (y : string) :
  In y (fold_left
          (fun keep item =>
             if isMatch pattern item then JS.setAdd keep item else keep)
          items keep)
  <-> In y keep \/ (In y items /\ isMatch pattern y = true).
Proof.
  revert keep; induction items as [|x items IH]; intros keep; simpl.
  - intuition.
  - rewrite IH. destruct (isMatch pattern x) eqn:E.
    + rewrite setAdd_In. intuition (subst; auto).
    + intuition (subst; auto). congruence.
Qed.

Lemma pass_NoDup (pattern : string) (items keep : list string) :
  NoDup keep ->
  NoDup (fold_left
           (fun keep item =>
              if isMatch pattern item then JS.setAdd keep item else keep)
           items keep).
Proof.
  revert keep; induction items as [|x items IH]; intros keep Hnd; simpl.
  - exact Hnd.
  - apply IH. destruct (isMatch pattern x); [now apply setAdd_NoDup | exact Hnd].
Qed.

Lemma passes_In (items patterns keep : list string) (y : string) :
  In y (fold_left
          (fun keep pattern =>
             fold_left
               (fun keep item =>
                  if isMatch pattern item then JS.setAdd keep item else keep)
               items keep)
          patterns keep)
  <-> In y keep
      \/ (In y items /\ exists g, In g patterns /\ isMatch g y = true).
Proof.
  revert keep; induction patterns as [|p patterns IH]; intros keep; simpl.
  - split; [now left|]. intros [H|(_ & g & [] & _)]. exact H.
  - rewrite IH, pass_In. split.
    + intros [[H|[Hy Hm]]|(Hy & g & Hg & Hm)]; eauto 8.
    + intros [H|(Hy & g & [<-|Hg] & Hm)]; eauto 8.
Qed.

Lemma passes_NoDup (items patterns keep : list string) :
  NoDup keep ->
  NoDup (fold_left
           (fun keep pattern =>
              fold_left
                (fun keep item =>
                   if isMatch pattern item then JS.setAdd keep item else keep)
                items keep)
           patterns keep).
Proof.
  revert keep; induction patterns as [|p patterns IH]; intros keep Hnd; simpl.
  - exact Hnd.
  - apply IH. now apply pass_NoDup.
Qed.

(** `micromatch` keeps exactly the items that some pattern accepts. *)
Lemma micromatch_In (items patterns : list string) (y : string) :
  In y (micromatch isMatch items patterns)
  <-> In y items /\ exists g, In g patterns /\ isMatch g y = true.
Proof.
  unfold micromatch. rewrite passes_In. simpl. intuition.
Qed.

Lemma micromatch_NoDup (items patterns : list string) :
  NoDup (micromatch isMatch items patterns).
Proof. apply passes_NoDup. constructor. Qed.

Lemma micromatch_length (items patterns : list string) :
  length (micromatch isMatch items patterns) <= length items.
Proof.
  apply NoDup_incl_length; [apply micromatch_NoDup|].
  intros y Hy. now apply micromatch_In in Hy.
Qed.

Variable cwd : string.

Lemma getFilesForPatterns_length (files patterns : list string) :
  length (getFilesForPatterns cwd isMatch files patterns) <= length files.
Proof.
  unfold getFilesForPatterns. rewrite length_map. apply micromatch_length.
Qed.

(** A bucket is non-empty exactly when a staged file matches its group. *)
Lemma bucket_nonempty (files patterns : list string) :
  getFilesForPatterns cwd isMatch files patterns <> []
  <-> staged isMatch files patterns.
Proof.
  unfold getFilesForPatterns, staged. split.
  - intros H. destruct (micromatch isMatch files patterns) as [|y l] eqn:E;
      [now elim H|].
    assert (In y (micromatch isMatch files patterns)) as Hy
        by (rewrite E; now left).
    apply micromatch_In in Hy as (Hy & g & Hg & Hm). eauto.
  - intros (y & g & Hy & Hg & Hm) E.
    apply map_eq_nil in E.
    assert (In y (micromatch isMatch files patterns)) as Hin
        by (apply micromatch_In; eauto).
    now rewrite E in Hin.
Qed.

Lemma bucket_empty (files patterns : list string) :
  (forall file pattern,
      In file files -> In pattern patterns -> isMatch pattern file = false) ->
  getFilesForPatterns cwd isMatch files patterns = [].
Proof.
  intros Hnone.
  destruct (getFilesForPatterns cwd isMatch files patterns) as [|x l] eqn:E;
    [reflexivity|].
  assert (staged isMatch files patterns) as (file & pattern & Hf & Hp & Hm).
  { apply bucket_nonempty. rewrite E. discriminate. }
  rewrite (Hnone file pattern Hf Hp) in Hm. discriminate.
Qed.

Lemma staged_app (files p1 p2 : list string) :
  staged isMatch files (p1 ++ p2)
  <-> staged isMatch files p1 \/ staged isMatch files p2.
Proof.
  unfold staged. split.
  - intros (y & g & Hy & Hg & Hm). apply in_app_or in Hg as [Hg|Hg]; eauto 8.
  - intros [(y & g & Hy & Hg & Hm)|(y & g & Hy & Hg & Hm)];
      exists y, g; rewrite in_app_iff; auto.
Qed.

Lemma composite_nonempty (xs ys : list string) :
  xs ++ ys <> [] <-> xs <> [] \/ ys <> [].
Proof.
  destruct xs as [|x xs]; simpl; split.
  - now right.
  - intros [H|H]; [now elim H | exact H].
  - left. discriminate.
  - discriminate.
Qed.

End MicromatchFacts.

(** ** The shape of a plan *)

Section PlanShape.

Lemma toolOf_cargoFmt : toolOf cargoFmt = Some CargoFmt.
Proof. reflexivity. Qed.

Lemma toolOf_cargoCheck : toolOf cargoCheck = Some CargoCheck.
Proof. reflexivity. Qed.

Lemma toolOf_tsc : toolOf tsc = Some Tsc.
Proof. reflexivity. Qed.

Lemma toolOf_prettier (args : string) :
  toolOf (prettierPrefix ++ args) = Some Prettier.
Proof. unfold toolOf. rewrite prefix_append. reflexivity. Qed.

Lemma toolOf_eslint (args : string) :
  toolOf (eslintPrefix ++ args) = Some Eslint.
Proof. unfold toolOf. rewrite prefix_append. reflexivity. Qed.

Lemma truthy_length (xs : list string) :
  JS.truthy (length xs) = true <-> xs <> [].
Proof.
  destruct xs; unfold JS.truthy; simpl; split; intros H;
    try discriminate; try reflexivity.
  now elim H.
Qed.

Variable cwd : string.
Variable isMatch : string -> string -> bool.

(** `processStagedFiles` pushes its commands in the order of [planOf]. *)
Lemma processStagedFiles_planOf (stagedFiles : list string) :
  processStagedFiles cwd isMatch stagedFiles =
  planOf (JS.truthy (length (rustFiles cwd isMatch stagedFiles)))
         (JS.truthy (length (filesToPrettify cwd isMatch stagedFiles)))
         (JS.truthy (length (typescriptFiles cwd isMatch stagedFiles)))
         (JS.truthy (length (filesToEslint cwd isMatch stagedFiles)))
         (prettierPrefix
            ++ JS.join " " (filesToPrettify cwd isMatch stagedFiles))%string
         (eslintPrefix
            ++ JS.join " " (filesToEslint cwd isMatch stagedFiles))%string.
Proof.
  unfold processStagedFiles, planOf.
  fold (rustFiles cwd isMatch stagedFiles)
       (dataFiles cwd isMatch stagedFiles)
       (htmlFiles cwd isMatch stagedFiles)
       (typescriptFiles cwd isMatch stagedFiles)
       (javascriptFiles cwd isMatch stagedFiles).
  fold (filesToPrettify cwd isMatch stagedFiles)
       (filesToEslint cwd isMatch stagedFiles).
  cbv zeta.
  destruct (JS.truthy (length (rustFiles cwd isMatch stagedFiles))),
           (JS.truthy (length (filesToPrettify cwd isMatch stagedFiles))),
           (JS.truthy (length (typescriptFiles cwd isMatch stagedFiles))),
           (JS.truthy (length (filesToEslint cwd isMatch stagedFiles)));
    reflexivity.
Qed.

End PlanShape.

(** Rewrites the tool of a command whose tool is known. *)
Ltac tools :=
  repeat match goal with
    | H : toolOf ?c = Some _ |- context [toolOf ?c] => rewrite H
    | |- context [toolOf cargoFmt] => rewrite toolOf_cargoFmt
    | |- context [toolOf cargoCheck] => rewrite toolOf_cargoCheck
    | |- context [toolOf tsc] => rewrite toolOf_tsc
    end.

(** Closes a goal in which two commands of different tools are equal. *)
Ltac clash :=
  match goal with
  | P : toolOf ?c = Some _, H : ?c = _ |- _ =>
      rewrite H in P; vm_compute in P; discriminate P
  | P : toolOf ?c = Some _, H : _ = ?c |- _ =>
      rewrite <- H in P; vm_compute in P; discriminate P
  | H : cargoFmt = _ |- _ => discriminate H
  | H : cargoCheck = _ |- _ => discriminate H
  | H : tsc = _ |- _ => discriminate H
  end.

Section PlanOfFacts.

Variables (r p t e : bool) (cP cE : string).
Hypothesis HP : toolOf cP = Some Prettier.
Hypothesis HE : toolOf cE = Some Eslint.

Lemma planOf_tools : Forall (fun c => toolOf c <> None) (planOf r p t e cP cE).
Proof.
  destruct r, p, t, e; unfold planOf; simpl;
    repeat constructor; tools; discriminate.
Qed.

Lemma planOf_sorted : StronglySorted precedes (planOf r p t e cP cE).
Proof.
  destruct r, p, t, e; unfold planOf; simpl;
    repeat constructor; unfold precedes; tools; simpl; lia.
Qed.

Lemma planOf_cargo_first :
  exists rest,
    planOf r p t e cP cE
    = (if r then [cargoFmt; cargoCheck] else []) ++ rest
    /\ Forall (fun c => invokes CargoFmt c = false
                        /\ invokes CargoCheck c = false) rest.
Proof.
  eexists. split; [reflexivity|].
  destruct p, t, e; simpl; repeat constructor; unfold invokes; tools;
    reflexivity.
Qed.

Lemma planOf_In (c : string) :
  In c (planOf r p t e cP cE)
  <-> (r = true /\ (c = cargoFmt \/ c = cargoCheck))
      \/ (p = true /\ c = cP) \/ (t = true /\ c = tsc)
      \/ (e = true /\ c = cE).
Proof.
  unfold planOf. rewrite !in_app_iff.
  destruct r, p, t, e; simpl; intuition congruence.
Qed.

Lemma planOf_filter_prettier :
  filter (invokes Prettier) (planOf r p t e cP cE) = if p then [cP] else [].
Proof.
  destruct r, p, t, e; unfold planOf, invokes; simpl; tools; reflexivity.
Qed.

Lemma planOf_filter_eslint :
  filter (invokes Eslint) (planOf r p t e cP cE) = if e then [cE] else [].
Proof.
  destruct r, p, t, e; unfold planOf, invokes; simpl; tools; reflexivity.
Qed.

Lemma planOf_length : length (planOf r p t e cP cE) <= 5.
Proof. destruct r, p, t, e; simpl; lia. Qed.

End PlanOfFacts.

Lemma precedes_irrefl (c : string) : ~ precedes c c.
Proof. unfold precedes. destruct (toolOf c); [lia | tauto]. Qed.

Lemma sorted_NoDup (l : list string) : StronglySorted precedes l -> NoDup l.
Proof.
  induction 1 as [|c l Hs IH Hall]; constructor; [|exact IH].
  intros Hin. rewrite Forall_forall in Hall.
  exact (precedes_irrefl c (Hall c Hin)).
Qed.

(** ** The command plan *)

Section PlanFacts.

Variable cwd : string.
Variable isMatch : string -> string -> bool.
Variable stagedFiles : list string.

Lemma plan_In (c : string) :
  In c (processStagedFiles cwd isMatch stagedFiles)
  <-> (rustFiles cwd isMatch stagedFiles <> []
       /\ (c = cargoFmt \/ c = cargoCheck))
      \/ (filesToPrettify cwd isMatch stagedFiles <> []
          /\ c = (prettierPrefix
                    ++ JS.join " " (filesToPrettify cwd isMatch stagedFiles))%string)
      \/ (typescriptFiles cwd isMatch stagedFiles <> [] /\ c = tsc)
      \/ (filesToEslint cwd isMatch stagedFiles <> []
          /\ c = (eslintPrefix
                    ++ JS.join " " (filesToEslint cwd isMatch stagedFiles))%string).
Proof.
  rewrite processStagedFiles_planOf, planOf_In, !truthy_length. reflexivity.
Qed.

Lemma formatTargets_staged :
  filesToPrettify cwd isMatch stagedFiles <> []
  <-> staged isMatch stagedFiles
        (dataPatterns ++ htmlPatterns ++ typescriptPatterns ++ javascriptPatterns).
Proof.
  unfold filesToPrettify. rewrite !composite_nonempty, !staged_app.
  unfold dataFiles, htmlFiles, typescriptFiles, javascriptFiles.
  rewrite !bucket_nonempty. tauto.
Qed.

Lemma lintTargets_staged :
  filesToEslint cwd isMatch stagedFiles <> []
  <-> staged isMatch stagedFiles (typescriptPatterns ++ javascriptPatterns).
Proof.
  unfold filesToEslint. rewrite !composite_nonempty, !staged_app.
  unfold typescriptFiles, javascriptFiles.
  rewrite !bucket_nonempty. tauto.
Qed.

End PlanFacts.

Section PlanProperties.

Variable cwd : string.
Variable isMatch : string -> string -> bool.
Variable stagedFiles : list string.

(** C1.  A command is in the plan exactly when its bucket holds a file: the
    two cargo commands with the rust bucket, the prettier invocation with
    the format targets, the tsc command with the typed-script bucket, the
    eslint invocation with the lint targets; and a bucket holds a file
    exactly when some staged file matches a pattern of its group. *)
Theorem command_iff_bucket :
  (In cargoFmt (processStagedFiles cwd isMatch stagedFiles)
   <-> rustFiles cwd isMatch stagedFiles <> [])
  /\ (In cargoCheck (processStagedFiles cwd isMatch stagedFiles)
      <-> rustFiles cwd isMatch stagedFiles <> [])
  /\ ((exists c, In c (processStagedFiles cwd isMatch stagedFiles)
                 /\ invokes Prettier c = true)
      <-> filesToPrettify cwd isMatch stagedFiles <> [])
  /\ (In tsc (processStagedFiles cwd isMatch stagedFiles)
      <-> typescriptFiles cwd isMatch stagedFiles <> [])
  /\ ((exists c, In c (processStagedFiles cwd isMatch stagedFiles)
                 /\ invokes Eslint c = true)
      <-> filesToEslint cwd isMatch stagedFiles <> [])
  /\ (rustFiles cwd isMatch stagedFiles <> []
      <-> staged isMatch stagedFiles rustPatterns)
  /\ (filesToPrettify cwd isMatch stagedFiles <> []
      <-> staged isMatch stagedFiles
            (dataPatterns ++ htmlPatterns
               ++ typescriptPatterns ++ javascriptPatterns))
  /\ (typescriptFiles cwd isMatch stagedFiles <> []
      <-> staged isMatch stagedFiles typescriptPatterns)
  /\ (filesToEslint cwd isMatch stagedFiles <> []
      <-> staged isMatch stagedFiles
            (typescriptPatterns ++ javascriptPatterns)).
Proof.
  pose proof
    (toolOf_prettier (JS.join " " (filesToPrettify cwd isMatch stagedFiles)))
    as HP.
  pose proof
    (toolOf_eslint (JS.join " " (filesToEslint cwd isMatch stagedFiles)))
    as HE.
  split; [|split; [|split; [|split; [|split; [|split; [|split; [|split]]]]]]].
  - rewrite plan_In. split.
    + intros [[H _]|[[_ H]|[[_ H]|[_ H]]]]; [exact H | clash ..].
    + auto.
  - rewrite plan_In. split.
    + intros [[H _]|[[_ H]|[[_ H]|[_ H]]]]; [exact H | clash ..].
    + auto.
  - split.
    + intros (c & Hc & Hi). unfold invokes in Hi.
      apply plan_In in Hc as [[_ [->| ->]]|[[H _]|[[_ ->]|[_ ->]]]];
        try exact H; revert Hi; tools; discriminate.
    + intros H. eexists. split; [apply plan_In; right; left; eauto|].
      unfold invokes. now tools.
  - rewrite plan_In. split.
    + intros [[_ [H|H]]|[[_ H]|[[H _]|[_ H]]]];
        [clash | clash | clash | exact H | clash].
    + auto.
  - split.
    + intros (c & Hc & Hi). unfold invokes in Hi.
      apply plan_In in Hc as [[_ [->| ->]]|[[_ ->]|[[_ ->]|[H _]]]];
        try exact H; revert Hi; tools; discriminate.
    + intros H. eexists. split; [apply plan_In; right; right; right; eauto|].
      unfold invokes. now tools.
  - apply bucket_nonempty.
  - apply formatTargets_staged.
  - apply bucket_nonempty.
  - apply lintTargets_staged.
Qed.

(** C2.  The commands of a plan follow the fixed order cargo fmt, cargo
    check, prettier, tsc, eslint: every command is one of these five, a
    command is followed only by commands of later tools, and the plan opens
    with the two cargo commands, cargo fmt before cargo check, when the rust
    bucket holds a file, with no cargo command after them. *)
Theorem plan_order :
  Forall (fun c => toolOf c <> None) (processStagedFiles cwd isMatch stagedFiles)
  /\ StronglySorted precedes (processStagedFiles cwd isMatch stagedFiles)
  /\ exists rest,
      processStagedFiles cwd isMatch stagedFiles
      = (if JS.truthy (length (rustFiles cwd isMatch stagedFiles))
         then [cargoFmt; cargoCheck] else [])
        ++ rest
      /\ Forall (fun c => invokes CargoFmt c = false
                          /\ invokes CargoCheck c = false) rest.
Proof.
  rewrite processStagedFiles_planOf. split; [|split].
  - apply planOf_tools; [apply toolOf_prettier | apply toolOf_eslint].
  - apply planOf_sorted; [apply toolOf_prettier | apply toolOf_eslint].
  - apply planOf_cargo_first; [apply toolOf_prettier | apply toolOf_eslint].
Qed.

(** C5.  When the format targets hold a file, the plan has exactly one
    prettier invocation and its arguments are the format targets (data,
    markup, typed-script, script, concatenated in that order) joined by
    single spaces; an eslint invocation in the plan has the lint targets
    (typed-script then script) joined by single spaces as its arguments, and
    there is exactly one when the lint targets hold a file. *)
Theorem invocation_arguments :
  filesToPrettify cwd isMatch stagedFiles <> [] ->
  filter (invokes Prettier) (processStagedFiles cwd isMatch stagedFiles)
  = [(prettierPrefix
        ++ JS.join " " (dataFiles cwd isMatch stagedFiles
                          ++ htmlFiles cwd isMatch stagedFiles
                          ++ typescriptFiles cwd isMatch stagedFiles
                          ++ javascriptFiles cwd isMatch stagedFiles))%string]
  /\ (forall c,
         In c (processStagedFiles cwd isMatch stagedFiles) ->
         invokes Eslint c = true ->
         c = (eslintPrefix
                ++ JS.join " " (typescriptFiles cwd isMatch stagedFiles
                                  ++ javascriptFiles cwd isMatch stagedFiles))%string)
  /\ (filesToEslint cwd isMatch stagedFiles <> [] ->
      filter (invokes Eslint) (processStagedFiles cwd isMatch stagedFiles)
      = [(eslintPrefix
            ++ JS.join " " (typescriptFiles cwd isMatch stagedFiles
                              ++ javascriptFiles cwd isMatch stagedFiles))%string]).
Proof.
  intros Hne.
  pose proof
    (toolOf_prettier (JS.join " " (filesToPrettify cwd isMatch stagedFiles)))
    as HP.
  pose proof
    (toolOf_eslint (JS.join " " (filesToEslint cwd isMatch stagedFiles)))
    as HE.
  split; [|split].
  - rewrite processStagedFiles_planOf, planOf_filter_prettier by assumption.
    apply truthy_length in Hne. now rewrite Hne.
  - intros c Hc Hi.
    assert (In c (filter (invokes Eslint)
                         (processStagedFiles cwd isMatch stagedFiles))) as Hin
        by (apply filter_In; auto).
    rewrite processStagedFiles_planOf, planOf_filter_eslint in Hin
        by assumption.
    destruct (JS.truthy (length (filesToEslint cwd isMatch stagedFiles)));
      [|destruct Hin].
    destruct Hin as [<-|[]]. reflexivity.
  - intros He.
    rewrite processStagedFiles_planOf, planOf_filter_eslint by assumption.
    apply truthy_length in He. now rewrite He.
Qed.

(** C8.  No command string occurs twice in a plan. *)
Theorem plan_NoDup : NoDup (processStagedFiles cwd isMatch stagedFiles).
Proof.
  apply sorted_NoDup. rewrite processStagedFiles_planOf.
  apply planOf_sorted; [apply toolOf_prettier | apply toolOf_eslint].
Qed.

End PlanProperties.

Lemma invocation_arguments_witness :
  filesToPrettify "/home/user/project" Glob.picomatch
    ["/home/user/project/config.json"; "/home/user/project/index.html";
     "/home/user/project/src/App.tsx"]
  <> []
  /\ filter (invokes Prettier)
       (processStagedFiles "/home/user/project" Glob.picomatch
          ["/home/user/project/config.json"; "/home/user/project/index.html";
           "/home/user/project/src/App.tsx"])
     = ["pnpm prettier --write ./config.json ./index.html ./src/App.tsx"].
Proof.
  split; [vm_compute; discriminate|].
  apply (invocation_arguments "/home/user/project" Glob.picomatch
           ["/home/user/project/config.json"; "/home/user/project/index.html";
            "/home/user/project/src/App.tsx"]).
  vm_compute. discriminate.
Defined.

(** The plan does depend on the working directory. *)
Example plan_depends_on_cwd :
  processStagedFiles "/home/user/project" Glob.picomatch
    ["/home/user/project/src/a.ts"]
  <> processStagedFiles "/tmp" Glob.picomatch ["/home/user/project/src/a.ts"].
Proof. vm_compute. discriminate. Qed.

(** ** Classification *)

Section Classification.

Variable cwd : string.
Variable isMatch : string -> string -> bool.

(** C10.  Every matched path is returned with the first occurrence of the
    working directory replaced by ".", wherever in the path that occurrence
    lies, and a matched path in which the working directory does not occur
    is returned unchanged; so an occurrence that is not a prefix is
    rewritten where it stands, as in "/srv/app/main.ts" under the working
    directory "/app". *)
Theorem rewrite_first_occurrence (files patterns : list string) :
  Forall2 (rewritten cwd)
          (micromatch isMatch files patterns)
          (getFilesForPatterns cwd isMatch files patterns)
  /\ getFilesForPatterns "/app" Glob.picomatch
       ["/srv/app/main.ts"] typescriptPatterns
     = ["/srv./main.ts"].
Proof.
  split; [|reflexivity].
  unfold getFilesForPatterns.
  induction (micromatch isMatch files patterns) as [|path matched IH].
  - constructor.
  - cbn [map]. constructor; [apply replace_rewritten | exact IH].
Qed.


End Classification.



(** ** Scenarios *)

Section Scenarios.

Variable cwd : string.

Lemma scenario1_buckets :
  dataFiles cwd Glob.picomatch ["src/a.ts"; "src/a.rs"] = []
  /\ htmlFiles cwd Glob.picomatch ["src/a.ts"; "src/a.rs"] = []
  /\ rustFiles cwd Glob.picomatch ["src/a.ts"; "src/a.rs"]
     = [JS.replace "src/a.rs" cwd "."]
  /\ typescriptFiles cwd Glob.picomatch ["src/a.ts"; "src/a.rs"]
     = [JS.replace "src/a.ts" cwd "."]
  /\ javascriptFiles cwd Glob.picomatch ["src/a.ts"; "src/a.rs"] = [].
Proof. repeat split. Qed.

Lemma scenario1_shape :
  processStagedFiles cwd Glob.picomatch ["src/a.ts"; "src/a.rs"]
  = [cargoFmt; cargoCheck;
     (prettierPrefix ++ JS.replace "src/a.ts" cwd ".")%string;
     tsc;
     (eslintPrefix ++ JS.replace "src/a.ts" cwd ".")%string].
Proof.
  rewrite processStagedFiles_planOf. unfold filesToPrettify, filesToEslint.
  destruct scenario1_buckets as (-> & -> & -> & -> & ->). reflexivity.
Qed.

(** C4, amended.  For the staged files "src/a.ts" and "src/a.rs", under a
    working directory that does not occur in "src/a.ts", the plan is cargo
    fmt, cargo check, prettier on "src/a.ts", tsc, eslint on "src/a.ts": the
    staged path is passed on as it was given. *)
Theorem scenario1_plan :
  (forall n, ~ occursAt cwd "src/a.ts" n) ->
  processStagedFiles cwd Glob.picomatch ["src/a.ts"; "src/a.rs"]
  = ["cargo fmt --manifest-path=./src-tauri/Cargo.toml";
     "cargo check --manifest-path=./src-tauri/Cargo.toml --color=always";
     "pnpm prettier --write src/a.ts";
     "pnpm tsc --pretty -p ./tsconfig.json";
     "pnpm eslint src/a.ts"].
Proof.
  intros Habsent. rewrite scenario1_shape.
  rewrite (replace_absent cwd "." "src/a.ts" Habsent). reflexivity.
Qed.

(** Whatever the working directory, "src/a.ts" is never rewritten to
    "./src/a.ts". *)
Lemma scenario1_no_dot_slash :
  JS.replace "src/a.ts" cwd "." <> "./src/a.ts".
Proof.
  rewrite replace_unfold. destruct (prefix cwd "src/a.ts").
  - intros H. apply (f_equal String.length) in H.
    pose proof (length_drop (String.length cwd) "src/a.ts") as Hle.
    cbn [String.length append] in H, Hle. lia.
  - discriminate.
Qed.

Lemma scenario1_never_as_specified :
  processStagedFiles cwd Glob.picomatch ["src/a.ts"; "src/a.rs"]
  <> [cargoFmt; cargoCheck; "pnpm prettier --write ./src/a.ts"; tsc;
      "pnpm eslint ./src/a.ts"].
Proof.
  rewrite scenario1_shape. intros H.
  injection H as H. apply scenario1_no_dot_slash. exact H.
Qed.

(** C6.  Staged files that no pattern of the five groups accepts stay out
    of every bucket and the plan is empty; so it is for the empty list and
    for the single file "README.md". *)
Theorem unmatched_files_empty_plan :
  (forall isMatch stagedFiles,
      (forall file pattern,
          In file stagedFiles -> In pattern allPatterns ->
          isMatch pattern file = false) ->
      dataFiles cwd isMatch stagedFiles = []
      /\ htmlFiles cwd isMatch stagedFiles = []
      /\ rustFiles cwd isMatch stagedFiles = []
      /\ typescriptFiles cwd isMatch stagedFiles = []
      /\ javascriptFiles cwd isMatch stagedFiles = []
      /\ processStagedFiles cwd isMatch stagedFiles = [])
  /\ (forall isMatch, processStagedFiles cwd isMatch [] = [])
  /\ processStagedFiles cwd Glob.picomatch ["README.md"] = [].
Proof.
  assert (forall isMatch stagedFiles,
             (forall file pattern,
                 In file stagedFiles -> In pattern allPatterns ->
                 isMatch pattern file = false) ->
             dataFiles cwd isMatch stagedFiles = []
             /\ htmlFiles cwd isMatch stagedFiles = []
             /\ rustFiles cwd isMatch stagedFiles = []
             /\ typescriptFiles cwd isMatch stagedFiles = []
             /\ javascriptFiles cwd isMatch stagedFiles = []
             /\ processStagedFiles cwd isMatch stagedFiles = []) as General.
  { intros isMatch stagedFiles Hnone.
    assert (forall patterns,
               incl patterns allPatterns ->
               getFilesForPatterns cwd isMatch stagedFiles patterns = [])
      as Hempty.
    { intros patterns Hincl. apply bucket_empty.
      intros file pattern Hf Hp. apply Hnone; [exact Hf | now apply Hincl]. }
    assert (dataFiles cwd isMatch stagedFiles = []) as Hd
        by (apply Hempty; intros g [<-|[]]; vm_compute; tauto).
    assert (htmlFiles cwd isMatch stagedFiles = []) as Hh
        by (apply Hempty; intros g [<-|[]]; vm_compute; tauto).
    assert (rustFiles cwd isMatch stagedFiles = []) as Hr
        by (apply Hempty; intros g [<-|[]]; vm_compute; tauto).
    assert (typescriptFiles cwd isMatch stagedFiles = []) as Ht
        by (apply Hempty; intros g [<-|[]]; vm_compute; tauto).
    assert (javascriptFiles cwd isMatch stagedFiles = []) as Hj
        by (apply Hempty; intros g [<-|[]]; vm_compute; tauto).
    repeat split; try assumption.
    rewrite processStagedFiles_planOf. unfold filesToPrettify, filesToEslint.
    rewrite Hd, Hh, Hr, Ht, Hj. reflexivity. }
  split; [exact General|]. split.
  - intros isMatch. apply General. intros file pattern [].
  - apply General. intros file pattern [<-|[]] Hp.
    repeat (destruct Hp as [<-|Hp]; [reflexivity|]). destruct Hp.
Qed.

End Scenarios.

Lemma scenario1_plan_witness :
  (forall n, ~ occursAt "/home/user/project" "src/a.ts" n)
  /\ processStagedFiles "/home/user/project" Glob.picomatch
       ["src/a.ts"; "src/a.rs"]
     = ["cargo fmt --manifest-path=./src-tauri/Cargo.toml";
        "cargo check --manifest-path=./src-tauri/Cargo.toml --color=always";
        "pnpm prettier --write src/a.ts";
        "pnpm tsc --pretty -p ./tsconfig.json";
        "pnpm eslint src/a.ts"].
Proof.
  assert (forall n, ~ occursAt "/home/user/project" "src/a.ts" n) as Habsent
    by (apply occurs_false; reflexivity).
  split; [exact Habsent|].
  apply (scenario1_plan "/home/user/project"). exact Habsent.
Defined.

(** C4, as stated, fails: under the working directory "/home/user/project"
    the plan for "src/a.ts" and "src/a.rs" does not hand "./src/a.ts" to
    prettier and eslint. *)
Lemma scenario1_dot_slash_refuted :
  processStagedFiles "/home/user/project" Glob.picomatch
    ["src/a.ts"; "src/a.rs"]
  <> ["cargo fmt --manifest-path=./src-tauri/Cargo.toml";
      "cargo check --manifest-path=./src-tauri/Cargo.toml --color=always";
      "pnpm prettier --write ./src/a.ts";
      "pnpm tsc --pretty -p ./tsconfig.json";
      "pnpm eslint ./src/a.ts"].
Proof. vm_compute. discriminate. Qed.

Lemma unmatched_files_empty_plan_witness :
  (forall file pattern,
      In file ["LICENSE"; "docs/guide.md"; "src-tauri/Cargo.toml"] ->
      In pattern allPatterns ->
      Glob.picomatch pattern file = false)
  /\ processStagedFiles "/home/user/project" Glob.picomatch
       ["LICENSE"; "docs/guide.md"; "src-tauri/Cargo.toml"] = [].
Proof.
  assert (forall file pattern,
             In file ["LICENSE"; "docs/guide.md"; "src-tauri/Cargo.toml"] ->
             In pattern allPatterns ->
             Glob.picomatch pattern file = false) as Hnone.
  { intros file pattern Hf Hp.
    repeat (destruct Hf as [<-|Hf];
            [repeat (destruct Hp as [<-|Hp]; [reflexivity|]); destruct Hp|]).
    destruct Hf. }
  split; [exact Hnone|].
  apply (proj1 (unmatched_files_empty_plan "/home/user/project")
               Glob.picomatch
               ["LICENSE"; "docs/guide.md"; "src-tauri/Cargo.toml"]
               Hnone).
Defined.

(** Data and markup files alone call for prettier only. *)
Example scenario3_plan :
  processStagedFiles "/home/user/project" Glob.picomatch
    ["config.json"; "index.html"]
  = ["pnpm prettier --write config.json index.html"].
Proof. reflexivity. Qed.

(** A path outside the working directory is matched by its extension and
    passed on as it is. *)
Example scenario5_outside_path :
  getFilesForPatterns "/home/user/project" Glob.picomatch
    ["/opt/tools/build.mjs"; "/opt/tools/notes.txt"] javascriptPatterns
  = ["/opt/tools/build.mjs"].
Proof. reflexivity. Qed.

(** Staged files under the working directory are handed to the tools
    relative to it. *)
Example absolute_paths_plan :
  processStagedFiles "/home/user/project" Glob.picomatch
    ["/home/user/project/src/a.ts"; "/home/user/project/src-tauri/src/a.rs"]
  = [cargoFmt; cargoCheck; "pnpm prettier --write ./src/a.ts"; tsc;
     "pnpm eslint ./src/a.ts"].
Proof. reflexivity. Qed.

(** ** Which tools a plan invokes *)

Section ToolSequence.

Variable cwd : string.
Variable isMatch : string -> string -> bool.

Lemma planOf_toolsOf (r p t e : bool) (cP cE : string) :
  toolOf cP = Some Prettier -> toolOf cE = Some Eslint ->
  toolsOf (planOf r p t e cP cE) = toolsOfFlags r p t e.
Proof.
  intros HP HE. unfold toolsOf, planOf, toolsOfFlags.
  rewrite !map_app. destruct r, p, t, e; simpl; tools; reflexivity.
Qed.

(** The tools of a plan are read off the four tests of
    `processStagedFiles`. *)
Lemma plan_toolsOf (stagedFiles : list string) :
  toolsOf (processStagedFiles cwd isMatch stagedFiles)
  = toolsOfFlags
      (JS.truthy (length (rustFiles cwd isMatch stagedFiles)))
      (JS.truthy (length (filesToPrettify cwd isMatch stagedFiles)))
      (JS.truthy (length (typescriptFiles cwd isMatch stagedFiles)))
      (JS.truthy (length (filesToEslint cwd isMatch stagedFiles))).
Proof.
  rewrite processStagedFiles_planOf.
  apply planOf_toolsOf; [apply toolOf_prettier | apply toolOf_eslint].
Qed.

Lemma rust_flag (stagedFiles : list string) :
  JS.truthy (length (rustFiles cwd isMatch stagedFiles)) = true
  <-> staged isMatch stagedFiles rustPatterns.
Proof. rewrite truthy_length. apply bucket_nonempty. Qed.

Lemma prettify_flag (stagedFiles : list string) :
  JS.truthy (length (filesToPrettify cwd isMatch stagedFiles)) = true
  <-> staged isMatch stagedFiles
        (dataPatterns ++ htmlPatterns ++ typescriptPatterns ++ javascriptPatterns).
Proof. rewrite truthy_length. apply formatTargets_staged. Qed.

Lemma typescript_flag (stagedFiles : list string) :
  JS.truthy (length (typescriptFiles cwd isMatch stagedFiles)) = true
  <-> staged isMatch stagedFiles typescriptPatterns.
Proof. rewrite truthy_length. apply bucket_nonempty. Qed.

Lemma eslint_flag (stagedFiles : list string) :
  JS.truthy (length (filesToEslint cwd isMatch stagedFiles)) = true
  <-> staged isMatch stagedFiles (typescriptPatterns ++ javascriptPatterns).
Proof. rewrite truthy_length. apply lintTargets_staged. Qed.

Lemma staged_incl (files files' patterns patterns' : list string) :
  incl files files' -> incl patterns patterns' ->
  staged isMatch files patterns -> staged isMatch files' patterns'.
Proof.
  intros Hf Hp (file & pattern & H1 & H2 & H3).
  exists file, pattern. auto.
Qed.

Lemma toolsOfFlags_mono (r p t e r' p' t' e' : bool) (x : option tool) :
  (r = true -> r' = true) -> (p = true -> p' = true) ->
  (t = true -> t' = true) -> (e = true -> e' = true) ->
  In x (toolsOfFlags r p t e) -> In x (toolsOfFlags r' p' t' e').
Proof.
  unfold toolsOfFlags. rewrite !in_app_iff. intros Hr Hp Ht He.
  intros [H|[H|[H|H]]].
  - destruct r; [|destruct H]. rewrite Hr by reflexivity. now left.
  - destruct p; [|destruct H]. rewrite Hp by reflexivity. right. now left.
  - destruct t; [|destruct H]. rewrite Ht by reflexivity.
    right. right. now left.
  - destruct e; [|destruct H]. rewrite He by reflexivity.
    right. right. now right.
Qed.

(** X1.  The plan is empty exactly when no staged file is accepted by a
    pattern of the five groups. *)
Theorem empty_plan_iff (stagedFiles : list string) :
  processStagedFiles cwd isMatch stagedFiles = []
  <-> ~ staged isMatch stagedFiles allPatterns.
Proof.
  assert (staged isMatch stagedFiles allPatterns
          <-> JS.truthy (length (rustFiles cwd isMatch stagedFiles)) = true
              \/ JS.truthy (length (filesToPrettify cwd isMatch stagedFiles))
                 = true) as Hall.
  { rewrite rust_flag, prettify_flag. unfold allPatterns.
    rewrite !staged_app. tauto. }
  assert (JS.truthy (length (typescriptFiles cwd isMatch stagedFiles)) = true ->
          JS.truthy (length (filesToPrettify cwd isMatch stagedFiles)) = true)
    as Ht.
  { rewrite typescript_flag, prettify_flag, !staged_app. tauto. }
  assert (JS.truthy (length (filesToEslint cwd isMatch stagedFiles)) = true ->
          JS.truthy (length (filesToPrettify cwd isMatch stagedFiles)) = true)
    as He.
  { rewrite eslint_flag, prettify_flag, !staged_app. tauto. }
  rewrite Hall, processStagedFiles_planOf.
  destruct (JS.truthy (length (rustFiles cwd isMatch stagedFiles))),
           (JS.truthy (length (filesToPrettify cwd isMatch stagedFiles))),
           (JS.truthy (length (typescriptFiles cwd isMatch stagedFiles))),
           (JS.truthy (length (filesToEslint cwd isMatch stagedFiles)));
    simpl; split; intros H;
    try discriminate H; try reflexivity;
    try (exfalso; apply H; tauto);
    try (intros [F|F]; discriminate F);
    try (specialize (Ht eq_refl); discriminate Ht);
    try (specialize (He eq_refl); discriminate He).
Qed.

(** X2.  A plan invokes one of eight tool sequences: tsc never runs without
    prettier and eslint, eslint never without prettier, and the cargo
    commands come as a pair. *)
Theorem plan_tool_sequence (stagedFiles : list string) :
  (exists tools,
      In tools toolSequences
      /\ toolsOf (processStagedFiles cwd isMatch stagedFiles) = map Some tools)
  /\ (In (Some Tsc) (toolsOf (processStagedFiles cwd isMatch stagedFiles)) ->
      In (Some Prettier) (toolsOf (processStagedFiles cwd isMatch stagedFiles))
      /\ In (Some Eslint) (toolsOf (processStagedFiles cwd isMatch stagedFiles)))
  /\ (In (Some Eslint) (toolsOf (processStagedFiles cwd isMatch stagedFiles)) ->
      In (Some Prettier) (toolsOf (processStagedFiles cwd isMatch stagedFiles)))
  /\ (In (Some CargoFmt) (toolsOf (processStagedFiles cwd isMatch stagedFiles))
      <-> In (Some CargoCheck)
             (toolsOf (processStagedFiles cwd isMatch stagedFiles))).
Proof.
  assert (JS.truthy (length (typescriptFiles cwd isMatch stagedFiles)) = true ->
          JS.truthy (length (filesToEslint cwd isMatch stagedFiles)) = true)
    as Hte.
  { rewrite typescript_flag, eslint_flag, !staged_app. tauto. }
  assert (JS.truthy (length (filesToEslint cwd isMatch stagedFiles)) = true ->
          JS.truthy (length (filesToPrettify cwd isMatch stagedFiles)) = true)
    as Hep.
  { rewrite eslint_flag, prettify_flag, !staged_app. tauto. }
  rewrite plan_toolsOf.
  destruct (JS.truthy (length (rustFiles cwd isMatch stagedFiles))),
           (JS.truthy (length (filesToPrettify cwd isMatch stagedFiles))),
           (JS.truthy (length (typescriptFiles cwd isMatch stagedFiles))),
           (JS.truthy (length (filesToEslint cwd isMatch stagedFiles)));
    try (specialize (Hte eq_refl); discriminate Hte);
    try (specialize (Hep eq_refl); discriminate Hep);
    (split;
     [first
        [ exists []; split; [simpl; tauto | reflexivity]
        | exists [Prettier]; split; [simpl; tauto | reflexivity]
        | exists [Prettier; Eslint]; split; [simpl; tauto | reflexivity]
        | exists [Prettier; Tsc; Eslint]; split; [simpl; tauto | reflexivity]
        | exists [CargoFmt; CargoCheck]; split; [simpl; tauto | reflexivity]
        | exists [CargoFmt; CargoCheck; Prettier];
          split; [simpl; tauto | reflexivity]
        | exists [CargoFmt; CargoCheck; Prettier; Eslint];
          split; [simpl; tauto | reflexivity]
        | exists [CargoFmt; CargoCheck; Prettier; Tsc; Eslint];
          split; [simpl; tauto | reflexivity] ]|]);
    simpl; intuition congruence.
Qed.

(** X3.  Which tools run, and in which order, depends only on which files
    are staged: two staged lists with the same elements, in whatever order
    and however often repeated, give the same tool sequence. *)
Theorem tools_depend_on_file_set (files files' : list string) :
  (forall file, In file files <-> In file files') ->
  toolsOf (processStagedFiles cwd isMatch files)
  = toolsOf (processStagedFiles cwd isMatch files').
Proof.
  intros Hsame.
  assert (forall patterns,
             staged isMatch files patterns <-> staged isMatch files' patterns)
    as Hst.
  { intros patterns. split; apply staged_incl;
      try (intros x Hx; exact Hx); intros x Hx; now apply Hsame. }
  rewrite !plan_toolsOf. f_equal; apply eq_iff_eq_true.
  - now rewrite !rust_flag.
  - now rewrite !prettify_flag.
  - now rewrite !typescript_flag.
  - now rewrite !eslint_flag.
Qed.

(** X4.  Staging more files never drops a tool: a tool that the plan of a
    staged list invokes is invoked by the plan of every larger list. *)
Theorem staging_more_keeps_tools (files files' : list string) (t : tool) :
  incl files files' ->
  In (Some t) (toolsOf (processStagedFiles cwd isMatch files)) ->
  In (Some t) (toolsOf (processStagedFiles cwd isMatch files')).
Proof.
  intros Hincl. rewrite !plan_toolsOf. apply toolsOfFlags_mono.
  - rewrite !rust_flag. apply staged_incl; [exact Hincl | apply incl_refl].
  - rewrite !prettify_flag. apply staged_incl; [exact Hincl | apply incl_refl].
  - rewrite !typescript_flag.
    apply staged_incl; [exact Hincl | apply incl_refl].
  - rewrite !eslint_flag. apply staged_incl; [exact Hincl | apply incl_refl].
Qed.

(** X5.  When some staged file matches the rust group and none matches a
    group of the format targets, the plan is the two cargo commands and
    nothing else, whichever and however many rust files are staged. *)
Theorem rust_only_plan (stagedFiles : list string) :
  staged isMatch stagedFiles rustPatterns ->
  ~ staged isMatch stagedFiles
      (dataPatterns ++ htmlPatterns ++ typescriptPatterns ++ javascriptPatterns) ->
  processStagedFiles cwd isMatch stagedFiles = [cargoFmt; cargoCheck].
Proof.
  intros Hr Hp.
  assert (JS.truthy (length (typescriptFiles cwd isMatch stagedFiles)) = true ->
          JS.truthy (length (filesToPrettify cwd isMatch stagedFiles)) = true)
    as Ht.
  { rewrite typescript_flag, prettify_flag, !staged_app. tauto. }
  assert (JS.truthy (length (filesToEslint cwd isMatch stagedFiles)) = true ->
          JS.truthy (length (filesToPrettify cwd isMatch stagedFiles)) = true)
    as He.
  { rewrite eslint_flag, prettify_flag, !staged_app. tauto. }
  apply rust_flag in Hr. rewrite <- prettify_flag in Hp.
  rewrite processStagedFiles_planOf, Hr.
  destruct (JS.truthy (length (filesToPrettify cwd isMatch stagedFiles)));
    [now elim Hp|].
  destruct (JS.truthy (length (typescriptFiles cwd isMatch stagedFiles)));
    [specialize (Ht eq_refl); discriminate Ht|].
  destruct (JS.truthy (length (filesToEslint cwd isMatch stagedFiles)));
    [specialize (He eq_refl); discriminate He|].
  reflexivity.
Qed.

End ToolSequence.

(** X6.  The working directory bears on the path arguments only: under two
    working directories the plans of one staged list invoke the same tools
    in the same order. *)
Theorem tools_independent_of_cwd (cwd cwd' : string)
  (isMatch : string -> string -> bool) (stagedFiles : list string) :
  toolsOf (processStagedFiles cwd isMatch stagedFiles)
  = toolsOf (processStagedFiles cwd' isMatch stagedFiles).
Proof.
  rewrite !plan_toolsOf. f_equal; apply eq_iff_eq_true.
  - now rewrite !rust_flag.
  - now rewrite !prettify_flag.
  - now rewrite !typescript_flag.
  - now rewrite !eslint_flag.
Qed.

Lemma tools_depend_on_file_set_witness :
  (forall file,
      In file ["src/a.ts"; "src-tauri/src/main.rs"]
      <-> In file ["src-tauri/src/main.rs"; "src/a.ts"; "src/a.ts"])
  /\ toolsOf (processStagedFiles "/home/user/project" Glob.picomatch
                ["src/a.ts"; "src-tauri/src/main.rs"])
     = toolsOf (processStagedFiles "/home/user/project" Glob.picomatch
                  ["src-tauri/src/main.rs"; "src/a.ts"; "src/a.ts"]).
Proof.
  assert (forall file,
             In file ["src/a.ts"; "src-tauri/src/main.rs"]
             <-> In file ["src-tauri/src/main.rs"; "src/a.ts"; "src/a.ts"])
    as Hsame by (intros file; simpl; tauto).
  split; [exact Hsame|].
  apply (tools_depend_on_file_set "/home/user/project" Glob.picomatch).
  exact Hsame.
Defined.

Lemma staging_more_keeps_tools_witness :
  incl ["src-tauri/src/main.rs"] ["src-tauri/src/main.rs"; "src/a.ts"]
  /\ In (Some CargoCheck)
        (toolsOf (processStagedFiles "/home/user/project" Glob.picomatch
                    ["src-tauri/src/main.rs"]))
  /\ In (Some CargoCheck)
        (toolsOf (processStagedFiles "/home/user/project" Glob.picomatch
                    ["src-tauri/src/main.rs"; "src/a.ts"])).
Proof.
  assert (incl ["src-tauri/src/main.rs"] ["src-tauri/src/main.rs"; "src/a.ts"])
    as Hincl by (intros x [<-|[]]; now left).
  assert (In (Some CargoCheck)
             (toolsOf (processStagedFiles "/home/user/project" Glob.picomatch
                         ["src-tauri/src/main.rs"])))
    as Hin by (vm_compute; tauto).
  split; [exact Hincl|]. split; [exact Hin|].
  exact (staging_more_keeps_tools "/home/user/project" Glob.picomatch
           ["src-tauri/src/main.rs"] ["src-tauri/src/main.rs"; "src/a.ts"]
           CargoCheck Hincl Hin).
Defined.

Lemma rust_only_plan_witness :
  staged Glob.picomatch
    ["src-tauri/src/main.rs"; "src-tauri/src/lib.rs"; "README.md"] rustPatterns
  /\ ~ staged Glob.picomatch
         ["src-tauri/src/main.rs"; "src-tauri/src/lib.rs"; "README.md"]
         (dataPatterns ++ htmlPatterns
            ++ typescriptPatterns ++ javascriptPatterns)
  /\ processStagedFiles "/home/user/project" Glob.picomatch
       ["src-tauri/src/main.rs"; "src-tauri/src/lib.rs"; "README.md"]
     = [cargoFmt; cargoCheck].
Proof.
  assert (staged Glob.picomatch
            ["src-tauri/src/main.rs"; "src-tauri/src/lib.rs"; "README.md"]
            rustPatterns) as Hr.
  { exists "src-tauri/src/main.rs", "**/*.rs".
    split; [now left|]. split; [now left | reflexivity]. }
  assert (~ staged Glob.picomatch
              ["src-tauri/src/main.rs"; "src-tauri/src/lib.rs"; "README.md"]
              (dataPatterns ++ htmlPatterns
                 ++ typescriptPatterns ++ javascriptPatterns)) as Hp.
  { intros (file & pattern & Hf & Hg & Hm).
    repeat (destruct Hf as [<-|Hf];
            [repeat (destruct Hg as [<-|Hg]; [discriminate Hm|]); destruct Hg|]).
    destruct Hf. }
  split; [exact Hr|]. split; [exact Hp|].
  exact (rust_only_plan "/home/user/project" Glob.picomatch
           ["src-tauri/src/main.rs"; "src-tauri/src/lib.rs"; "README.md"]
           Hr Hp).
Defined.

(** ** What the matched set depends on *)

Section MatchedSet.

Variable isMatch : string -> string -> bool.

Lemma setAdd_absent (keep : list string) (x : string) :
  ~ In x keep -> JS.setAdd keep x = keep ++ [x].
Proof.
  intros Hnot. unfold JS.setAdd.
  destruct (existsb (String.eqb x) keep) eqn:E; [|reflexivity].
  apply existsb_exists in E as (z & Hz & Heq).
  apply String.eqb_eq in Heq. subst z. now elim Hnot.
Qed.

Lemma setAdd_present (keep : list string) (x : string) :
  In x keep -> JS.setAdd keep x = keep.
Proof.
  intros Hin. unfold JS.setAdd.
  assert (existsb (String.eqb x) keep = true) as ->; [|reflexivity].
  apply existsb_exists. exists x. split; [exact Hin | apply String.eqb_refl].
Qed.

(** Over items that are neither repeated nor kept already, a pass appends
    the accepted items in their order. *)
Lemma pass_filter (pattern : string) (items keep : list string) :
  NoDup items -> (forall x, In x items -> ~ In x keep) ->
  fold_left
    (fun keep item => if isMatch pattern item then JS.setAdd keep item else keep)
    items keep
  = keep ++ filter (isMatch pattern) items.
Proof.
  revert keep; induction items as [|x items IH]; intros keep Hnd Hfresh.
  - simpl. now rewrite app_nil_r.
  - apply NoDup_cons_iff in Hnd as [Hx Hnd]. simpl.
    destruct (isMatch pattern x) eqn:E.
    + rewrite setAdd_absent by (apply Hfresh; now left).
      rewrite IH; [now rewrite <- app_assoc | exact Hnd |].
      intros y Hy Hin. apply in_app_or in Hin as [Hin|[<-|[]]].
      * apply (Hfresh y); [now right | exact Hin].
      * now apply Hx.
    + apply IH; [exact Hnd|]. intros y Hy. apply Hfresh. now right.
Qed.

(** Items that the pattern refuses can be left out of a pass. *)
Lemma pass_ignores (keepFile : string -> bool) (pattern : string)
  (items keep : list string) :
  (forall item, isMatch pattern item = true -> keepFile item = true) ->
  fold_left
    (fun keep item => if isMatch pattern item then JS.setAdd keep item else keep)
    (filter keepFile items) keep
  = fold_left
      (fun keep item => if isMatch pattern item then JS.setAdd keep item else keep)
      items keep.
Proof.
  intros Hsub. revert keep; induction items as [|x items IH]; intros keep.
  - reflexivity.
  - simpl. destruct (keepFile x) eqn:K; simpl.
    + apply IH.
    + destruct (isMatch pattern x) eqn:E; [|apply IH].
      rewrite (Hsub x E) in K. discriminate K.
Qed.

Lemma micromatch_ignores (keepFile : string -> bool)
  (items patterns : list string) :
  (forall pattern item,
      In pattern patterns -> isMatch pattern item = true ->
      keepFile item = true) ->
  micromatch isMatch (filter keepFile items) patterns
  = micromatch isMatch items patterns.
Proof.
  unfold micromatch. generalize (@nil string) as keep.
  induction patterns as [|p patterns IH]; intros keep Hsub.
  - reflexivity.
  - simpl. rewrite pass_ignores by (intros item; apply Hsub; now left).
    apply IH. intros pattern item Hp. apply Hsub. now right.
Qed.

(** An item met before adds nothing to a pass. *)
Lemma pass_repeated (pattern : string) (items keep : list string) (x : string) :
  In x items ->
  fold_left
    (fun keep item => if isMatch pattern item then JS.setAdd keep item else keep)
    (items ++ [x]) keep
  = fold_left
      (fun keep item => if isMatch pattern item then JS.setAdd keep item else keep)
      items keep.
Proof.
  intros Hin. rewrite fold_left_app. simpl.
  destruct (isMatch pattern x) eqn:E; [|reflexivity].
  apply setAdd_present. apply pass_In. right. now split.
Qed.

Lemma passes_repeated (items patterns keep : list string) (x : string) :
  In x items ->
  fold_left
    (fun keep pattern =>
       fold_left
         (fun keep item =>
            if isMatch pattern item then JS.setAdd keep item else keep)
         (items ++ [x]) keep)
    patterns keep
  = fold_left
      (fun keep pattern =>
         fold_left
           (fun keep item =>
              if isMatch pattern item then JS.setAdd keep item else keep)
           items keep)
      patterns keep.
Proof.
  intros Hin. revert keep.
  induction patterns as [|p patterns IH]; intros keep.
  - reflexivity.
  - simpl. rewrite pass_repeated by exact Hin. apply IH.
Qed.

Lemma micromatch_repeated (items patterns : list string) (x : string) :
  In x items ->
  micromatch isMatch (items ++ [x]) patterns = micromatch isMatch items patterns.
Proof. intros Hin. now apply passes_repeated. Qed.

Lemma micromatch_relisted (items more patterns : list string) :
  incl more items ->
  micromatch isMatch (items ++ more) patterns = micromatch isMatch items patterns.
Proof.
  induction more as [|x more IH] using rev_ind; intros Hincl.
  - now rewrite app_nil_r.
  - rewrite app_assoc, micromatch_repeated.
    + apply IH. intros y Hy. apply Hincl, in_or_app. now left.
    + apply in_or_app. left. apply Hincl, in_or_app. right. now left.
Qed.

End MatchedSet.

(** ** What a plan depends on *)

Section PlanInputs.

Variable cwd : string.
Variable isMatch : string -> string -> bool.

(** X7.  For a group of one pattern and a staged list without repeated
    entries, the bucket lists the accepted files in the order in which they
    are staged, each with the working directory replaced. *)
Theorem bucket_in_staged_order (files : list string) (pattern : string) :
  NoDup files ->
  getFilesForPatterns cwd isMatch files [pattern]
  = map (fun path => JS.replace path cwd ".") (filter (isMatch pattern) files).
Proof.
  intros Hnd. unfold getFilesForPatterns, micromatch. cbn [fold_left].
  rewrite pass_filter; [reflexivity | exact Hnd | intros x _ []].
Qed.

Lemma bucket_ignores (files patterns given : list string) :
  incl given patterns ->
  getFilesForPatterns cwd isMatch (filter (accepted isMatch patterns) files) given
  = getFilesForPatterns cwd isMatch files given.
Proof.
  intros Hincl. unfold getFilesForPatterns. rewrite micromatch_ignores;
    [reflexivity|].
  intros pattern item Hp Hm. apply existsb_exists.
  exists pattern. split; [now apply Hincl | exact Hm].
Qed.

Lemma groups_in_allPatterns :
  incl dataPatterns allPatterns /\ incl htmlPatterns allPatterns
  /\ incl rustPatterns allPatterns /\ incl typescriptPatterns allPatterns
  /\ incl javascriptPatterns allPatterns.
Proof. repeat split; intros g [<-|[]]; vm_compute; tauto. Qed.

(** X8.  Staged files that no pattern of the five groups accepts have no
    bearing on the plan: leaving them out gives the same commands, and no
    bucket of a group changes when the files that its patterns refuse are
    left out. *)
Theorem unmatched_files_ignored (stagedFiles : list string) :
  processStagedFiles cwd isMatch (filter (accepted isMatch allPatterns) stagedFiles)
  = processStagedFiles cwd isMatch stagedFiles
  /\ forall patterns,
      getFilesForPatterns cwd isMatch
        (filter (accepted isMatch patterns) stagedFiles) patterns
      = getFilesForPatterns cwd isMatch stagedFiles patterns.
Proof.
  split.
  - destruct groups_in_allPatterns as (Hd & Hh & Hr & Ht & Hj).
    unfold processStagedFiles.
    rewrite (bucket_ignores stagedFiles allPatterns dataPatterns Hd),
            (bucket_ignores stagedFiles allPatterns htmlPatterns Hh),
            (bucket_ignores stagedFiles allPatterns rustPatterns Hr),
            (bucket_ignores stagedFiles allPatterns typescriptPatterns Ht),
            (bucket_ignores stagedFiles allPatterns javascriptPatterns Hj).
    reflexivity.
  - intros patterns. apply bucket_ignores, incl_refl.
Qed.

(** X9.  Listing again files that are staged already changes nothing: the
    plan of a staged list followed by some of its own entries is the plan
    of the list. *)
Theorem relisted_files_ignored (stagedFiles more : list string) :
  incl more stagedFiles ->
  processStagedFiles cwd isMatch (stagedFiles ++ more)
  = processStagedFiles cwd isMatch stagedFiles.
Proof.
  intros Hincl. unfold processStagedFiles, getFilesForPatterns.
  rewrite !(micromatch_relisted isMatch stagedFiles more) by exact Hincl.
  reflexivity.
Qed.

End PlanInputs.

Lemma bucket_in_staged_order_witness :
  NoDup ["/home/user/project/src/b.ts"; "/home/user/project/index.html";
         "/home/user/project/src/a.tsx"]
  /\ getFilesForPatterns "/home/user/project" Glob.picomatch
       ["/home/user/project/src/b.ts"; "/home/user/project/index.html";
        "/home/user/project/src/a.tsx"] ["**/*.{ts,tsx}"]
     = ["./src/b.ts"; "./src/a.tsx"].
Proof.
  assert (NoDup ["/home/user/project/src/b.ts"; "/home/user/project/index.html";
                 "/home/user/project/src/a.tsx"]) as Hnd.
  { repeat constructor; simpl; intuition discriminate. }
  split; [exact Hnd|].
  exact (bucket_in_staged_order "/home/user/project" Glob.picomatch
           ["/home/user/project/src/b.ts"; "/home/user/project/index.html";
            "/home/user/project/src/a.tsx"] "**/*.{ts,tsx}" Hnd).
Defined.

Lemma relisted_files_ignored_witness :
  incl ["src/a.ts"] ["src/a.ts"; "src/lib.rs"]
  /\ processStagedFiles "/home/user/project" Glob.picomatch
       (["src/a.ts"; "src/lib.rs"] ++ ["src/a.ts"])
     = processStagedFiles "/home/user/project" Glob.picomatch
         ["src/a.ts"; "src/lib.rs"].
Proof.
  assert (incl ["src/a.ts"] ["src/a.ts"; "src/lib.rs"]) as Hincl
    by (intros x [<-|[]]; now left).
  split; [exact Hincl|].
  exact (relisted_files_ignored "/home/user/project" Glob.picomatch
           ["src/a.ts"; "src/lib.rs"] ["src/a.ts"] Hincl).
Defined.

(** ** The argument lists *)

Section Arguments.

Lemma append_assoc (s t u : string) :
  ((s ++ t) ++ u)%string = (s ++ t ++ u)%string.
Proof. induction s as [|c s IH]; simpl; [reflexivity | now rewrite IH]. Qed.

Lemma occursAt_append_r (pat s t : string) (n : nat) :
  occursAt pat s n -> occursAt pat (s ++ t) n.
Proof.
  intros (before & after & -> & <-). exists before, (after ++ t)%string.
  split; [|reflexivity]. now rewrite !append_assoc.
Qed.

Lemma occursAt_append_l (pat s t : string) (n : nat) :
  occursAt pat t n -> occursAt pat (s ++ t) (String.length s + n).
Proof.
  intros (before & after & -> & <-). exists (s ++ before)%string, after.
  split; [now rewrite append_assoc | apply length_append].
Qed.

(** Joining a concatenation: the separator comes between the two parts when
    the first one is not empty. *)
Lemma join_app (sep : string) (xs ys : list string) :
  ys <> [] ->
  JS.join sep (xs ++ ys)
  = (match xs with
     | [] => ""
     | _ :: _ => JS.join sep xs ++ sep
     end ++ JS.join sep ys)%string.
Proof.
  intros Hys. induction xs as [|x xs IH]; [reflexivity|].
  unfold JS.join in *. cbn [app String.concat].
  destruct xs as [|y xs].
  - destruct ys as [|z ys]; [now elim Hys|].
    cbn [app]. now rewrite append_assoc.
  - cbn [app] in *. rewrite IH. now rewrite !append_assoc.
Qed.

Variable cwd : string.
Variable isMatch : string -> string -> bool.

Lemma bucket_single (file pattern : string) :
  getFilesForPatterns cwd isMatch [file] [pattern]
  = if isMatch pattern file then [JS.replace file cwd "."] else [].
Proof.
  unfold getFilesForPatterns, micromatch. cbn [fold_left].
  now destruct (isMatch pattern file).
Qed.

Lemma bucket_pair (p q pattern : string) :
  p <> q ->
  getFilesForPatterns cwd isMatch [p; q] [pattern]
  = (if isMatch pattern p then [JS.replace p cwd "."] else [])
    ++ (if isMatch pattern q then [JS.replace q cwd "."] else []).
Proof.
  intros Hne. rewrite bucket_in_staged_order.
  - cbn [filter]. now destruct (isMatch pattern p), (isMatch pattern q).
  - repeat constructor; simpl; intuition.
Qed.

(** X10.  Paths are joined by spaces without quoting, so a staged file whose
    name holds a space is indistinguishable from two staged files: when the
    five groups treat "p q", [p] and [q] alike and the working directory
    does not occur in "p q", staging the one file "p q" yields the very
    commands of staging [p] and [q]. *)
Theorem unquoted_space_merges (p q : string) :
  p <> q ->
  (forall pattern,
      In pattern allPatterns ->
      isMatch pattern (p ++ " " ++ q) = isMatch pattern p
      /\ isMatch pattern q = isMatch pattern p) ->
  (forall n, ~ occursAt cwd (p ++ " " ++ q) n) ->
  processStagedFiles cwd isMatch [(p ++ " " ++ q)%string]
  = processStagedFiles cwd isMatch [p; q].
Proof.
  intros Hne Hsame Habs.
  assert (JS.replace (p ++ " " ++ q) cwd "." = (p ++ " " ++ q)%string) as Rpq
      by now apply replace_absent.
  assert (JS.replace p cwd "." = p) as Rp.
  { apply replace_absent. intros n H. apply (Habs n).
    now apply occursAt_append_r. }
  assert (JS.replace q cwd "." = q) as Rq.
  { apply replace_absent. intros n H.
    apply (Habs (String.length p + (1 + n))).
    apply occursAt_append_l. now apply (occursAt_append_l cwd " " q). }
  assert (forall pattern,
             In pattern allPatterns ->
             getFilesForPatterns cwd isMatch [(p ++ " " ++ q)%string] [pattern]
             = (if isMatch pattern p then [(p ++ " " ++ q)%string] else [])
             /\ getFilesForPatterns cwd isMatch [p; q] [pattern]
                = if isMatch pattern p then [p; q] else []) as Hbucket.
  { intros pattern Hin. destruct (Hsame pattern Hin) as [H1 H2].
    rewrite bucket_single, bucket_pair, H1, H2, Rpq, Rp, Rq by exact Hne.
    now destruct (isMatch pattern p). }
  unfold processStagedFiles, dataPatterns, htmlPatterns, rustPatterns,
    typescriptPatterns, javascriptPatterns.
  destruct (Hbucket "**/*.{json,yaml}") as [-> ->]; [vm_compute; tauto|].
  destruct (Hbucket "**/*.html") as [-> ->]; [vm_compute; tauto|].
  destruct (Hbucket "**/*.rs") as [-> ->]; [vm_compute; tauto|].
  destruct (Hbucket "**/*.{ts,tsx}") as [-> ->]; [vm_compute; tauto|].
  destruct (Hbucket "**/*.{js,cjs,mjs}") as [-> ->]; [vm_compute; tauto|].
  destruct (isMatch "**/*.{json,yaml}" p), (isMatch "**/*.html" p),
           (isMatch "**/*.rs" p), (isMatch "**/*.{ts,tsx}" p),
           (isMatch "**/*.{js,cjs,mjs}" p);
    cbn [app length JS.truthy Nat.eqb negb JS.push JS.join String.concat];
    rewrite ?append_assoc; reflexivity.
Qed.

(** X11.  Every path handed to eslint is handed to prettier too: when the
    lint targets hold a file, the arguments of the prettier invocation of
    the plan end with the arguments of its eslint invocation, after the
    data and markup paths if there are any. *)
Theorem linted_paths_close_prettier_arguments (stagedFiles : list string) :
  filesToEslint cwd isMatch stagedFiles <> [] ->
  In (eslintPrefix ++ JS.join " " (filesToEslint cwd isMatch stagedFiles))%string
     (processStagedFiles cwd isMatch stagedFiles)
  /\ In (prettierPrefix
          ++ match (dataFiles cwd isMatch stagedFiles
                      ++ htmlFiles cwd isMatch stagedFiles)%list with
             | [] => ""
             | others => JS.join " " others ++ " "
             end
          ++ JS.join " " (filesToEslint cwd isMatch stagedFiles))%string
        (processStagedFiles cwd isMatch stagedFiles).
Proof.
  intros Hlint. split.
  - apply plan_In. right. right. right. now split.
  - apply plan_In. right. left.
    assert (filesToPrettify cwd isMatch stagedFiles
            = (dataFiles cwd isMatch stagedFiles
                 ++ htmlFiles cwd isMatch stagedFiles)
              ++ filesToEslint cwd isMatch stagedFiles) as Hsplit
        by (unfold filesToPrettify, filesToEslint; now rewrite app_assoc).
    split.
    + rewrite Hsplit. intros H. apply app_eq_nil in H as [_ H]. now apply Hlint.
    + rewrite Hsplit, join_app by exact Hlint.
      now destruct (dataFiles cwd isMatch stagedFiles
                      ++ htmlFiles cwd isMatch stagedFiles).
Qed.

End Arguments.

Lemma unquoted_space_merges_witness :
  "src/a.ts" <> "b.ts"
  /\ (forall pattern,
         In pattern allPatterns ->
         Glob.picomatch pattern ("src/a.ts" ++ " " ++ "b.ts")
         = Glob.picomatch pattern "src/a.ts"
         /\ Glob.picomatch pattern "b.ts" = Glob.picomatch pattern "src/a.ts")
  /\ (forall n,
         ~ occursAt "/home/user/project" ("src/a.ts" ++ " " ++ "b.ts") n)
  /\ processStagedFiles "/home/user/project" Glob.picomatch
       [("src/a.ts" ++ " " ++ "b.ts")%string]
     = processStagedFiles "/home/user/project" Glob.picomatch
         ["src/a.ts"; "b.ts"].
Proof.
  assert ("src/a.ts" <> "b.ts") as Hne by discriminate.
  assert (forall pattern,
             In pattern allPatterns ->
             Glob.picomatch pattern ("src/a.ts" ++ " " ++ "b.ts")
             = Glob.picomatch pattern "src/a.ts"
             /\ Glob.picomatch pattern "b.ts"
                = Glob.picomatch pattern "src/a.ts") as Hsame.
  { intros pattern Hin.
    repeat (destruct Hin as [<-|Hin]; [split; reflexivity|]). destruct Hin. }
  assert (forall n,
             ~ occursAt "/home/user/project" ("src/a.ts" ++ " " ++ "b.ts") n)
    as Habs by (apply occurs_false; reflexivity).
  split; [exact Hne|]. split; [exact Hsame|]. split; [exact Habs|].
  exact (unquoted_space_merges "/home/user/project" Glob.picomatch
           "src/a.ts" "b.ts" Hne Hsame Habs).
Defined.

Lemma linted_paths_close_prettier_arguments_witness :
  filesToEslint "/home/user/project" Glob.picomatch
    ["/home/user/project/config.json"; "/home/user/project/src/a.ts"] <> []
  /\ In "pnpm prettier --write ./config.json ./src/a.ts"
        (processStagedFiles "/home/user/project" Glob.picomatch
           ["/home/user/project/config.json"; "/home/user/project/src/a.ts"]).
Proof.
  assert (filesToEslint "/home/user/project" Glob.picomatch
            ["/home/user/project/config.json"; "/home/user/project/src/a.ts"]
          <> []) as Hlint by (vm_compute; discriminate).
  split; [exact Hlint|].
  exact (proj2 (linted_paths_close_prettier_arguments
                  "/home/user/project" Glob.picomatch
                  ["/home/user/project/config.json";
                   "/home/user/project/src/a.ts"] Hlint)).
Defined.

(** ** Staged lists with the same files, and combined staged lists *)

Section FileSets.

Variable cwd : string.
Variable isMatch : string -> string -> bool.

(** X12.  Two staged lists with the same elements give every bucket the
    same paths, up to their order. *)
Theorem arguments_depend_on_file_set (files files' patterns : list string) :
  (forall file, In file files <-> In file files') ->
  Permutation (getFilesForPatterns cwd isMatch files patterns)
              (getFilesForPatterns cwd isMatch files' patterns).
Proof.
  intros Hsame. unfold getFilesForPatterns. apply Permutation_map.
  apply NoDup_Permutation; try apply micromatch_NoDup.
  intros x. rewrite !micromatch_In, Hsame. reflexivity.
Qed.

Lemma staged_files_app (files files' patterns : list string) :
  staged isMatch (files ++ files') patterns
  <-> staged isMatch files patterns \/ staged isMatch files' patterns.
Proof.
  unfold staged. split.
  - intros (f & g & Hf & Hg & Hm). apply in_app_or in Hf as [Hf|Hf]; eauto 8.
  - intros [(f & g & Hf & Hg & Hm)|(f & g & Hf & Hg & Hm)];
      exists f, g; rewrite in_app_iff; auto.
Qed.

Lemma toolsOfFlags_In (r p t e : bool) (x : tool) :
  In (Some x) (toolsOfFlags r p t e)
  <-> match x with
      | CargoFmt | CargoCheck => r
      | Prettier => p
      | Tsc => t
      | Eslint => e
      end = true.
Proof.
  unfold toolsOfFlags. destruct x, r, p, t, e; simpl;
    intuition (try discriminate; try reflexivity).
Qed.

(** X13.  The tools of a combined staged list are the tools of its parts:
    the plan of two lists staged together invokes a tool exactly when the
    plan of one of them does. *)
Theorem tools_of_combined_staging (files files' : list string) (t : tool) :
  In (Some t) (toolsOf (processStagedFiles cwd isMatch (files ++ files')))
  <-> In (Some t) (toolsOf (processStagedFiles cwd isMatch files))
      \/ In (Some t) (toolsOf (processStagedFiles cwd isMatch files')).
Proof.
  rewrite !plan_toolsOf, !toolsOfFlags_In.
  destruct t;
    rewrite ?rust_flag, ?prettify_flag, ?typescript_flag, ?eslint_flag;
    apply staged_files_app.
Qed.

End FileSets.

Lemma arguments_depend_on_file_set_witness :
  (forall file,
      In file ["src/a.ts"; "src/b.tsx"] <-> In file ["src/b.tsx"; "src/a.ts"])
  /\ Permutation
       (getFilesForPatterns "/home/user/project" Glob.picomatch
          ["src/a.ts"; "src/b.tsx"] typescriptPatterns)
       (getFilesForPatterns "/home/user/project" Glob.picomatch
          ["src/b.tsx"; "src/a.ts"] typescriptPatterns).
Proof.
  assert (forall file,
             In file ["src/a.ts"; "src/b.tsx"]
             <-> In file ["src/b.tsx"; "src/a.ts"])
    as Hsame by (intros file; simpl; tauto).
  split; [exact Hsame|].
  exact (arguments_depend_on_file_set "/home/user/project" Glob.picomatch
           ["src/a.ts"; "src/b.tsx"] ["src/b.tsx"; "src/a.ts"]
           typescriptPatterns Hsame).
Defined.

(** ** Runs over the store *)

Section RunFacts.

Variable compile : string -> option Run.matcher.

Lemma bind_Returns (A B : Type) (c : Run.M A) (k : A -> Run.M B)
  (w w' : Run.world) (a : A) :
  c w = Run.Returns (a, w') -> Run.bind c k w = k a w'.
Proof. intros H. unfold Run.bind. now rewrite H. Qed.

Lemma nth_error_frame (heap new : list (list string)) (k : nat) :
  nth_error (heap ++ new) (length heap + k) = nth_error new k.
Proof.
  rewrite nth_error_app2 by lia. f_equal. lia.
Qed.

Lemma update_frame (heap new : list (list string)) (k : nat)
  (f : list string -> list string) :
  Run.update (length heap + k) f (heap ++ new) = heap ++ Run.update k f new.
Proof. induction heap as [|xs heap IH]; simpl; [reflexivity | now rewrite IH]. Qed.

(** The operations on a store [heap ++ new], where [heap] is the store
    before the call and [new] holds what the call has allocated. *)
Lemma newArray_at (heap new : list (list string)) (wd : option string)
  (xs : list string) :
  Run.newArray xs (Run.World (heap ++ new) wd)
  = Run.Returns (length heap + length new,
                 Run.World (heap ++ (new ++ [xs])) wd).
Proof.
  unfold Run.newArray. simpl. now rewrite length_app, <- app_assoc.
Qed.

Lemma readArray_old (heap new : list (list string)) (wd : option string)
  (r : nat) (xs : list string) :
  nth_error heap r = Some xs ->
  Run.readArray r (Run.World (heap ++ new) wd)
  = Run.Returns (xs, Run.World (heap ++ new) wd).
Proof.
  intros H. unfold Run.readArray. simpl.
  rewrite nth_error_app1 by (apply nth_error_Some; congruence).
  now rewrite H.
Qed.

Lemma readArray_at (heap new : list (list string)) (wd : option string)
  (k : nat) (xs : list string) :
  nth_error new k = Some xs ->
  Run.readArray (length heap + k) (Run.World (heap ++ new) wd)
  = Run.Returns (xs, Run.World (heap ++ new) wd).
Proof.
  intros H. unfold Run.readArray. simpl. now rewrite nth_error_frame, H.
Qed.

Lemma push_at (heap new : list (list string)) (wd : option string)
  (k : nat) (xs : list string) (x : string) :
  nth_error new k = Some xs ->
  Run.push (length heap + k) x (Run.World (heap ++ new) wd)
  = Run.Returns (tt, Run.World
                       (heap ++ Run.update k (fun xs => JS.push xs x) new) wd).
Proof.
  intros H. unfold Run.push. simpl.
  now rewrite nth_error_frame, H, update_frame.
Qed.

(** With a readable working directory the callback of `map` is the
    replacement of the pure reading. *)
Lemma mapM_replace (w : Run.world) (d : string) (paths : list string) :
  Run.workingDirectory w = Some d ->
  Run.mapM (fun path =>
              Run.bind Run.cwd (fun d => Run.ret (JS.replace path d ".")))
           paths w
  = Run.Returns (map (fun path => JS.replace path d ".") paths, w).
Proof.
  intros Hwd. induction paths as [|path paths IH]; [reflexivity|].
  cbn [Run.mapM map]. unfold Run.bind, Run.cwd, Run.ret in *.
  rewrite Hwd. cbv beta iota. rewrite IH. reflexivity.
Qed.

(** Without any matched path the callback does not run, and the working
    directory is not asked for. *)
Lemma mapM_nil (A B : Type) (f : A -> Run.M B) (w : Run.world) :
  Run.mapM f [] w = Run.Returns ([], w).
Proof. reflexivity. Qed.

Lemma nth_error_last (new : list (list string)) (xs : list string) :
  nth_error (new ++ [xs]) (length new) = Some xs.
Proof. rewrite nth_error_app2, Nat.sub_diag by lia. reflexivity. Qed.

Lemma micromatch_at (heap new : list (list string)) (wd : option string)
  (files : nat) (xs patterns ms : list string) :
  nth_error heap files = Some xs ->
  Run.select compile patterns xs = Run.Returns ms ->
  Run.micromatch compile files patterns (Run.World (heap ++ new) wd)
  = Run.Returns (length heap + length new,
                 Run.World (heap ++ (new ++ [ms])) wd).
Proof.
  intros Hfiles Hsel. unfold Run.micromatch, Run.bind, Run.lift.
  rewrite (readArray_old heap new wd files xs Hfiles), Hsel.
  apply newArray_at.
Qed.

(** A call of `getFilesForPatterns` on an array of the old store: it
    allocates the matched array and the rewritten one and returns the
    latter. *)
Lemma getFilesForPatterns_at (heap new : list (list string)) (d : string)
  (files : nat) (xs patterns ms : list string) :
  nth_error heap files = Some xs ->
  Run.select compile patterns xs = Run.Returns ms ->
  Run.getFilesForPatterns compile files patterns
    (Run.World (heap ++ new) (Some d))
  = Run.Returns
      (length heap + S (length new),
       Run.World
         (heap ++ (new ++ [ms; map (fun path => JS.replace path d ".") ms]))
         (Some d)).
Proof.
  intros Hfiles Hsel. unfold Run.getFilesForPatterns.
  erewrite bind_Returns by (eapply micromatch_at; eassumption).
  erewrite bind_Returns by (apply readArray_at, nth_error_last).
  erewrite bind_Returns by (now apply mapM_replace).
  rewrite newArray_at, length_app, <- app_assoc. simpl.
  do 2 f_equal. lia.
Qed.

(** Steps a run through its next operation. *)
Ltac run_step :=
  first
    [ erewrite bind_Returns by (apply newArray_at)
    | erewrite bind_Returns by (eapply getFilesForPatterns_at; eassumption)
    | erewrite bind_Returns by (apply readArray_at; reflexivity)
    | erewrite bind_Returns by (eapply push_at; reflexivity)
    | erewrite bind_Returns
        by (erewrite bind_Returns by (eapply push_at; reflexivity);
            eapply push_at; reflexivity)
    | erewrite bind_Returns by reflexivity ].

(** A call of `processStagedFiles`: it returns a fresh array, the first of
    the thirteen it allocates, that holds the plan assembled from the five
    buckets; the arrays of the old store are as they were. *)
Lemma processStagedFiles_at (heap : list (list string)) (d : string)
  (stagedFiles : nat) (xs md mh mr mt mj : list string) :
  nth_error heap stagedFiles = Some xs ->
  Run.select compile dataPatterns xs = Run.Returns md ->
  Run.select compile htmlPatterns xs = Run.Returns mh ->
  Run.select compile rustPatterns xs = Run.Returns mr ->
  Run.select compile typescriptPatterns xs = Run.Returns mt ->
  Run.select compile javascriptPatterns xs = Run.Returns mj ->
  Run.processStagedFiles compile stagedFiles (Run.World heap (Some d))
  = Run.Returns
      (length heap,
       Run.World
         (heap
            ++ planOf
                 (JS.truthy (length (map (fun path => JS.replace path d ".") mr)))
                 (JS.truthy
                    (length
                       (map (fun path => JS.replace path d ".") md
                          ++ map (fun path => JS.replace path d ".") mh
                          ++ map (fun path => JS.replace path d ".") mt
                          ++ map (fun path => JS.replace path d ".") mj)))
                 (JS.truthy (length (map (fun path => JS.replace path d ".") mt)))
                 (JS.truthy
                    (length
                       (map (fun path => JS.replace path d ".") mt
                          ++ map (fun path => JS.replace path d ".") mj)))
                 (prettierPrefix
                    ++ JS.join " "
                         (map (fun path => JS.replace path d ".") md
                            ++ map (fun path => JS.replace path d ".") mh
                            ++ map (fun path => JS.replace path d ".") mt
                            ++ map (fun path => JS.replace path d ".") mj))%string
                 (eslintPrefix
                    ++ JS.join " "
                         (map (fun path => JS.replace path d ".") mt
                            ++ map (fun path => JS.replace path d ".") mj))%string
            :: [md; map (fun path => JS.replace path d ".") md;
                mh; map (fun path => JS.replace path d ".") mh;
                mr; map (fun path => JS.replace path d ".") mr;
                mt; map (fun path => JS.replace path d ".") mt;
                mj; map (fun path => JS.replace path d ".") mj;
                map (fun path => JS.replace path d ".") mt
                  ++ map (fun path => JS.replace path d ".") mj;
                map (fun path => JS.replace path d ".") md
                  ++ map (fun path => JS.replace path d ".") mh
                  ++ map (fun path => JS.replace path d ".") mt
                  ++ map (fun path => JS.replace path d ".") mj])
         (Some d)).
Proof.
  intros Hfiles Hd Hh Hr Ht Hj.
  replace (Run.World heap (Some d)) with (Run.World (heap ++ []) (Some d))
    by now rewrite app_nil_r.
  unfold Run.processStagedFiles.
  repeat run_step.
  set (bd := map (fun path => JS.replace path d ".") md).
  set (bh := map (fun path => JS.replace path d ".") mh).
  set (br := map (fun path => JS.replace path d ".") mr).
  set (bt := map (fun path => JS.replace path d ".") mt).
  set (bj := map (fun path => JS.replace path d ".") mj).
  destruct (JS.truthy (length br)); repeat run_step;
    destruct (JS.truthy (length (bd ++ bh ++ bt ++ bj))); repeat run_step;
    destruct (JS.truthy (length bt)); repeat run_step;
    destruct (JS.truthy (length (bt ++ bj))); repeat run_step;
    unfold Run.ret; cbn [app length Run.update JS.push planOf];
    rewrite Nat.add_0_r; reflexivity.
Qed.



(** The loop of `micromatch` returns whenever the engine accepts every
    pattern, negated or not. *)
Lemma scan_total (patterns xs : list string) (s : Run.sets) (n : nat) :
  (forall g, In g patterns -> compile g <> None) ->
  exists s' n', Run.scan compile patterns xs s n = Run.Returns (s', n').
Proof.
  revert s n; induction patterns as [|g patterns IH]; intros s n Hacc.
  - now exists s, n.
  - cbn [Run.scan]. destruct (compile g) as [m|] eqn:E.
    + apply IH. intros g' Hg'. apply Hacc. now right.
    + exfalso. apply (Hacc g); [now left | exact E].
Qed.

Lemma select_total (patterns xs : list string) :
  (forall g, In g patterns -> compile g <> None) ->
  exists ms, Run.select compile patterns xs = Run.Returns ms.
Proof.
  intros Hacc. unfold Run.select.
  destruct (scan_total patterns xs (Run.Sets [] [] []) 0 Hacc)
    as (s' & n' & ->).
  eexists. reflexivity.
Qed.

(** Under a positive pattern nothing is omitted and the kept items grow as
    in the pure reading. *)
Lemma visit_positive (m : Run.matcher) (xs : list string) (s : Run.sets) :
  Run.negated m = false -> Run.omit s = [] ->
  Run.omit (fold_left (Run.visit m) xs s) = []
  /\ Run.keep (fold_left (Run.visit m) xs s)
     = fold_left
         (fun keep item => if Run.test m item then JS.setAdd keep item else keep)
         xs (Run.keep s).
Proof.
  intros Hpos. revert s; induction xs as [|x xs IH]; intros s Homit.
  - now split.
  - cbn [fold_left]. destruct (IH (Run.visit m s x)) as [Ho Hk].
    { unfold Run.visit. rewrite Hpos.
      destruct (Run.test m x); cbn [Run.omit]; rewrite Homit; reflexivity. }
    split; [exact Ho|]. rewrite Hk. f_equal.
    unfold Run.visit. rewrite Hpos. now destruct (Run.test m x).
Qed.

Lemma scan_positive (patterns xs : list string) (s : Run.sets) (n : nat) :
  (forall g, In g patterns -> Run.positive compile g) ->
  Run.omit s = [] ->
  exists s',
    Run.scan compile patterns xs s n = Run.Returns (s', n)
    /\ Run.omit s' = []
    /\ Run.keep s'
       = fold_left
           (fun keep pattern =>
              fold_left
                (fun keep item =>
                   if Run.matches compile pattern item
                   then JS.setAdd keep item else keep)
                xs keep)
           patterns (Run.keep s).
Proof.
  revert s; induction patterns as [|g patterns IH]; intros s Hpos Homit.
  - exists s. now repeat split.
  - destruct (Hpos g (or_introl eq_refl)) as (m & Hm & Hneg).
    destruct (visit_positive m xs s Hneg Homit) as [Ho Hk].
    destruct (IH (fold_left (Run.visit m) xs s)) as (s' & Hs & Ho' & Hk').
    { intros g' Hg'. apply Hpos. now right. }
    { exact Ho. }
    exists s'. cbn [Run.scan fold_left]. rewrite Hm, Hneg. split; [exact Hs|].
    split; [exact Ho'|]. rewrite Hk', Hk. unfold Run.matches. now rewrite Hm.
Qed.

Lemma filter_none_omitted (l : list string) :
  filter (fun item => negb (Run.setHas [] item)) l = l.
Proof.
  induction l as [|y l IH]; [reflexivity|].
  cbn [filter]. unfold Run.setHas at 1. cbn [existsb negb]. now rewrite IH.
Qed.

(** For positive patterns `micromatch` selects what the pure reading
    selects. *)
Lemma select_positive (patterns xs : list string) :
  (forall g, In g patterns -> Run.positive compile g) ->
  Run.select compile patterns xs
  = Run.Returns (micromatch (Run.matches compile) xs patterns).
Proof.
  intros Hpos. destruct patterns as [|g patterns]; [reflexivity|].
  unfold Run.select.
  destruct (scan_positive (g :: patterns) xs (Run.Sets [] [] []) 0 Hpos eq_refl)
    as (s' & -> & Ho & Hk).
  rewrite Ho, Hk. cbn [length Nat.eqb Run.keep].
  now rewrite filter_none_omitted.
Qed.

(** The bucket that a run leaves for a group of positive patterns is the
    bucket of the pure reading. *)
Lemma run_refines_plan (heap : list (list string)) (d : string)
  (stagedFiles : nat) (xs : list string) :
  nth_error heap stagedFiles = Some xs ->
  (forall g, In g allPatterns -> Run.positive compile g) ->
  exists garbage,
    Run.processStagedFiles compile stagedFiles (Run.World heap (Some d))
    = Run.Returns
        (length heap,
         Run.World
           (heap ++ processStagedFiles d (Run.matches compile) xs :: garbage)
           (Some d)).
Proof.
  intros Hfiles Hpos.
  destruct (groups_in_allPatterns d (Run.matches compile))
    as (Id & Ih & Ir & It & Ij).
  eexists.
  rewrite (processStagedFiles_at heap d stagedFiles xs _ _ _ _ _ Hfiles
             (select_positive dataPatterns xs (fun g H => Hpos g (Id g H)))
             (select_positive htmlPatterns xs (fun g H => Hpos g (Ih g H)))
             (select_positive rustPatterns xs (fun g H => Hpos g (Ir g H)))
             (select_positive typescriptPatterns xs (fun g H => Hpos g (It g H)))
             (select_positive javascriptPatterns xs
                (fun g H => Hpos g (Ij g H)))).
  rewrite processStagedFiles_planOf. reflexivity.
Qed.

End RunFacts.

Lemma globEngine_accepts (g : string) :
  In g allPatterns -> Run.positive Run.globEngine g.
Proof.
  intros Hin.
  repeat (destruct Hin as [<-|Hin];
          [eexists; split; reflexivity|]).
  destruct Hin.
Qed.

Lemma positive_accepted (compile : string -> option Run.matcher) (g : string) :
  Run.positive compile g -> compile g <> None.
Proof. intros (m & -> & _). discriminate. Qed.

(** A pattern that is positive by its text is positive for the engine
    model, which then tests as [Glob.picomatch] does. *)
Lemma positivePattern_globEngine (g : string) :
  positivePattern g ->
  Run.positive Run.globEngine g
  /\ forall item, Run.matches Run.globEngine g item = Glob.picomatch g item.
Proof.
  intros [Hne Hbang]. destruct g as [|c g]; [now elim Hne|].
  assert (Run.stripBangs (String c g) = (0, String c g)) as Hstrip.
  { destruct c as [[] [] [] [] [] [] [] []]; try reflexivity.
    destruct g; vm_compute in Hbang; discriminate Hbang. }
  unfold Run.positive, Run.matches, Run.globEngine. rewrite Hstrip.
  split; [eexists; split; reflexivity|].
  intros item. now destruct item.
Qed.

(** The bucket that a run allocates for a group of patterns that the engine
    reads as positive is the bucket of the pure reading. *)
Lemma run_refines_bucket (compile : string -> option Run.matcher)
  (heap : list (list string)) (d : string) (files : nat)
  (xs patterns : list string) :
  nth_error heap files = Some xs ->
  (forall g, In g patterns -> Run.positive compile g) ->
  Run.getFilesForPatterns compile files patterns (Run.World heap (Some d))
  = Run.Returns
      (S (length heap),
       Run.World
         (heap ++ [micromatch (Run.matches compile) xs patterns;
                   getFilesForPatterns d (Run.matches compile) xs patterns])
         (Some d)).
Proof.
  intros Hfiles Hpos. rewrite <- (app_nil_r heap) at 1.
  rewrite (getFilesForPatterns_at compile heap [] d files xs patterns _ Hfiles
             (select_positive compile patterns xs Hpos)).
  cbn [length app]. now rewrite Nat.add_1_r.
Qed.

(** Whatever the accepted patterns of the five groups select, a call of
    `processStagedFiles` returns a fresh array and leaves the old store in
    place. *)
Lemma processStagedFiles_returns (compile : string -> option Run.matcher)
  (heap : list (list string)) (d : string) (stagedFiles : nat)
  (files : list string) :
  nth_error heap stagedFiles = Some files ->
  (forall g, In g allPatterns -> compile g <> None) ->
  exists plan garbage,
    Run.processStagedFiles compile stagedFiles (Run.World heap (Some d))
    = Run.Returns (length heap, Run.World (heap ++ plan :: garbage) (Some d))
    /\ length garbage = 12.
Proof.
  intros Hfiles Hacc.
  destruct (groups_in_allPatterns d (Run.matches compile))
    as (Id & Ih & Ir & It & Ij).
  destruct (select_total compile dataPatterns files) as [md Hd];
    [intros g H; apply Hacc, Id, H|].
  destruct (select_total compile htmlPatterns files) as [mh Hh];
    [intros g H; apply Hacc, Ih, H|].
  destruct (select_total compile rustPatterns files) as [mr Hr];
    [intros g H; apply Hacc, Ir, H|].
  destruct (select_total compile typescriptPatterns files) as [mt Ht];
    [intros g H; apply Hacc, It, H|].
  destruct (select_total compile javascriptPatterns files) as [mj Hj];
    [intros g H; apply Hacc, Ij, H|].
  do 2 eexists. split.
  - exact (processStagedFiles_at compile heap d stagedFiles files
             md mh mr mt mj Hfiles Hd Hh Hr Ht Hj).
  - reflexivity.
Qed.

(** C9.  Classification and planning never throw on a list of path strings:
    in a store that holds the list, with a working directory that can be
    read, `getFilesForPatterns` returns an array for every group of patterns
    that the glob engine accepts, negated or not, and `processStagedFiles`
    returns its plan as soon as the engine accepts the patterns of the five
    groups, as the engine model does. *)
Theorem planner_never_throws (compile : string -> option Run.matcher)
  (w : Run.world) (stagedFiles : nat) (files : list string) (d : string) :
  nth_error (Run.arrays w) stagedFiles = Some files ->
  Run.workingDirectory w = Some d ->
  (forall patterns,
      (forall g, In g patterns -> compile g <> None) ->
      exists r w' bucket,
        Run.getFilesForPatterns compile stagedFiles patterns w
        = Run.Returns (r, w')
        /\ nth_error (Run.arrays w') r = Some bucket)
  /\ ((forall g, In g allPatterns -> compile g <> None) ->
      exists r w' plan,
        Run.processStagedFiles compile stagedFiles w = Run.Returns (r, w')
        /\ nth_error (Run.arrays w') r = Some plan)
  /\ exists r w' plan,
      Run.processStagedFiles Run.globEngine stagedFiles w = Run.Returns (r, w')
      /\ nth_error (Run.arrays w') r = Some plan.
Proof.
  destruct w as [heap wd]. cbn [Run.arrays Run.workingDirectory].
  intros Hfiles ->.
  assert (forall compile,
             (forall g, In g allPatterns -> compile g <> None) ->
             exists r w' plan,
               Run.processStagedFiles compile stagedFiles
                 (Run.World heap (Some d)) = Run.Returns (r, w')
               /\ nth_error (Run.arrays w') r = Some plan) as Hplan.
  { intros engine Hacc.
    destruct (processStagedFiles_returns engine heap d stagedFiles files
                Hfiles Hacc) as (plan & garbage & Hrun & _).
    do 3 eexists. split; [exact Hrun|]. cbn [Run.arrays].
    now rewrite nth_error_app2, Nat.sub_diag by lia. }
  split; [|split].
  - intros patterns Hacc.
    destruct (select_total compile patterns files Hacc) as [ms Hms].
    do 3 eexists. split.
    + rewrite <- (app_nil_r heap) at 1.
      exact (getFilesForPatterns_at compile heap [] d stagedFiles files
               patterns ms Hfiles Hms).
    + cbn [Run.arrays app length].
      rewrite (nth_error_frame heap _ 1). reflexivity.
  - apply Hplan.
  - apply Hplan. intros g Hg. apply positive_accepted, globEngine_accepts, Hg.
Qed.

(** C7.  Calls on the same staged-file list return the same plan: for a
    readable working directory and an engine that accepts the patterns of
    the five groups there is one plan that every call returns, in whatever
    store the list lies; two calls in a row return two different arrays
    with that plan as their contents, the array of the first call is not
    touched by the second, and neither call touches the staged list or the
    working directory. *)
Theorem second_call_same_plan (compile : string -> option Run.matcher)
  (files : list string) (d : string) :
  (forall g, In g allPatterns -> compile g <> None) ->
  exists plan,
    forall (w : Run.world) (stagedFiles : nat),
      nth_error (Run.arrays w) stagedFiles = Some files ->
      Run.workingDirectory w = Some d ->
      exists first w1 second w2,
        Run.processStagedFiles compile stagedFiles w = Run.Returns (first, w1)
        /\ Run.processStagedFiles compile stagedFiles w1
           = Run.Returns (second, w2)
        /\ nth_error (Run.arrays w1) first = Some plan
        /\ nth_error (Run.arrays w2) first = Some plan
        /\ nth_error (Run.arrays w2) second = Some plan
        /\ first <> second
        /\ nth_error (Run.arrays w2) stagedFiles = Some files
        /\ Run.workingDirectory w2 = Some d.
Proof.
  intros Hacc.
  destruct (groups_in_allPatterns d (Run.matches compile))
    as (Id & Ih & Ir & It & Ij).
  destruct (select_total compile dataPatterns files) as [md Hd];
    [intros g H; apply Hacc, Id, H|].
  destruct (select_total compile htmlPatterns files) as [mh Hh];
    [intros g H; apply Hacc, Ih, H|].
  destruct (select_total compile rustPatterns files) as [mr Hr];
    [intros g H; apply Hacc, Ir, H|].
  destruct (select_total compile typescriptPatterns files) as [mt Ht];
    [intros g H; apply Hacc, It, H|].
  destruct (select_total compile javascriptPatterns files) as [mj Hj];
    [intros g H; apply Hacc, Ij, H|].
  eexists. intros [heap wd] stagedFiles.
  cbn [Run.arrays Run.workingDirectory]. intros Hfiles ->.
  pose proof (processStagedFiles_at compile heap d stagedFiles files
                md mh mr mt mj Hfiles Hd Hh Hr Ht Hj) as Hfirst.
  match type of Hfirst with
  | _ = Run.Returns (_, Run.World (heap ++ ?plan :: ?garbage) _) =>
      set (thePlan := plan) in *; set (theGarbage := garbage) in *
  end.
  assert (nth_error (heap ++ thePlan :: theGarbage) stagedFiles = Some files)
    as Hfiles1.
  { rewrite nth_error_app1; [exact Hfiles|].
    apply nth_error_Some. congruence. }
  pose proof (processStagedFiles_at compile (heap ++ thePlan :: theGarbage) d
                stagedFiles files md mh mr mt mj Hfiles1 Hd Hh Hr Ht Hj)
    as Hsecond.
  fold thePlan theGarbage in Hsecond.
  do 4 eexists. split; [exact Hfirst|]. split; [exact Hsecond|].
  cbn [Run.arrays Run.workingDirectory].
  split; [rewrite nth_error_app2, Nat.sub_diag by lia; reflexivity|].
  split.
  { rewrite <- app_assoc.
    now rewrite nth_error_app2, Nat.sub_diag by lia. }
  split; [now rewrite nth_error_app2, Nat.sub_diag by lia|].
  split; [rewrite length_app; simpl; lia|].
  split; [|reflexivity].
  rewrite nth_error_app1; [exact Hfiles1|].
  apply nth_error_Some. congruence.
Qed.

Lemma planner_never_throws_witness :
  nth_error
    (Run.arrays (Run.World [["src/a.ts"; "src-tauri/src/main.rs"; "README.md"]]
                           (Some "/home/user/project"))) 0
  = Some ["src/a.ts"; "src-tauri/src/main.rs"; "README.md"]
  /\ Run.workingDirectory
       (Run.World [["src/a.ts"; "src-tauri/src/main.rs"; "README.md"]]
                  (Some "/home/user/project"))
     = Some "/home/user/project"
  /\ (forall g, In g allPatterns -> Run.globEngine g <> None)
  /\ exists r w' plan,
      Run.processStagedFiles Run.globEngine 0
        (Run.World [["src/a.ts"; "src-tauri/src/main.rs"; "README.md"]]
                   (Some "/home/user/project"))
      = Run.Returns (r, w')
      /\ nth_error (Run.arrays w') r = Some plan.
Proof.
  assert (forall g, In g allPatterns -> Run.globEngine g <> None) as Hacc
    by (intros g Hg; apply positive_accepted, globEngine_accepts, Hg).
  split; [reflexivity|]. split; [reflexivity|]. split; [exact Hacc|].
  exact (proj1 (proj2 (planner_never_throws Run.globEngine
                         (Run.World
                            [["src/a.ts"; "src-tauri/src/main.rs"; "README.md"]]
                            (Some "/home/user/project"))
                         0 ["src/a.ts"; "src-tauri/src/main.rs"; "README.md"]
                         "/home/user/project" eq_refl eq_refl)) Hacc).
Defined.

Lemma second_call_same_plan_witness :
  (forall g, In g allPatterns -> Run.globEngine g <> None)
  /\ exists plan,
      forall (w : Run.world) (stagedFiles : nat),
        nth_error (Run.arrays w) stagedFiles
        = Some ["src/a.ts"; "src-tauri/src/main.rs"] ->
        Run.workingDirectory w = Some "/home/user/project" ->
        exists first w1 second w2,
          Run.processStagedFiles Run.globEngine stagedFiles w
          = Run.Returns (first, w1)
          /\ Run.processStagedFiles Run.globEngine stagedFiles w1
             = Run.Returns (second, w2)
          /\ nth_error (Run.arrays w1) first = Some plan
          /\ nth_error (Run.arrays w2) first = Some plan
          /\ nth_error (Run.arrays w2) second = Some plan
          /\ first <> second
          /\ nth_error (Run.arrays w2) stagedFiles
             = Some ["src/a.ts"; "src-tauri/src/main.rs"]
          /\ Run.workingDirectory w2 = Some "/home/user/project".
Proof.
  assert (forall g, In g allPatterns -> Run.globEngine g <> None) as Hacc
    by (intros g Hg; apply positive_accepted, globEngine_accepts, Hg).
  split; [exact Hacc|].
  exact (second_call_same_plan Run.globEngine
           ["src/a.ts"; "src-tauri/src/main.rs"] "/home/user/project" Hacc).
Defined.

(** The two calls of the scenario, run: the second plan is the first. *)
Example second_call_scenario :
  Run.processStagedFiles Run.globEngine 0
    (Run.World [["/home/user/project/src/a.ts"]] (Some "/home/user/project"))
  = Run.Returns
      (1,
       Run.World
         [["/home/user/project/src/a.ts"];
          ["pnpm prettier --write ./src/a.ts"; tsc; "pnpm eslint ./src/a.ts"];
          []; []; []; []; []; [];
          ["/home/user/project/src/a.ts"]; ["./src/a.ts"]; []; [];
          ["./src/a.ts"]; ["./src/a.ts"]]
         (Some "/home/user/project")).
Proof. reflexivity. Qed.

(** A pattern that the engine refuses, and a working directory that cannot
    be read while a file matches, are the ways for a call to throw. *)
Example refused_pattern_throws :
  Run.getFilesForPatterns Run.globEngine 0 [""]
    (Run.World [["src/a.ts"]] (Some "/home/user/project"))
  = Run.Throws (Run.PatternRefused "").
Proof. reflexivity. Qed.

Example unreadable_cwd_throws :
  Run.processStagedFiles Run.globEngine 0 (Run.World [["src/a.ts"]] None)
  = Run.Throws Run.CwdUnavailable
  /\ exists w',
      Run.processStagedFiles Run.globEngine 0 (Run.World [["README.md"]] None)
      = Run.Returns (1, w').
Proof. split; [reflexivity | eexists; reflexivity]. Qed.

(** With negated patterns `micromatch` returns the kept items less the
    omitted ones. *)
Example negated_pattern_omits :
  Run.getFilesForPatterns Run.globEngine 0 ["**/*"; "!**/*.ts"]
    (Run.World [["a.rs"; "b.ts"; "c/d.ts"]] (Some "/home/user/project"))
  = Run.Returns
      (2, Run.World [["a.rs"; "b.ts"; "c/d.ts"]; ["a.rs"]; ["a.rs"]]
                    (Some "/home/user/project")).
Proof. reflexivity. Qed.
